(** * SIR backend: the chat request pipeline

    A shallow embedding of [routes/chatRoutes.js] (rate governor, request
    validation, prompt assembly, primary/fallback provider calls, the
    stream relay and the cached history endpoint) and of [utils/cache.js],
    followed by the properties of the pipeline.

    Conventions.
    - JavaScript numbers that hold integers (counters, millisecond clocks,
      page numbers) are [Z].
    - JavaScript strings are [string]; a character stands for one code unit
      below 256.
    - The process-wide [rateLimitCache] (a [Map]) and the Redis key space
      are [gmap]s keyed by strings.  [req.user._id] is taken as a primitive
      identifier, so that [Map] lookup and template-literal interpolation
      agree on it.
    - Effects are explicit: handlers are computations over the state of the
      server (rate windows, cache, store, log, provider calls issued and the
      operations performed on the response object [res]) that return or
      throw; time and the behaviour of the provider are arguments. *)

From stdpp Require Import gmap strings list sorting pretty.
From Stdlib Require Import ZArith Ascii QArith.

Local Open Scope Z_scope.

(** ** Numbers *)

(** [Math.ceil(a / b)] on integers that fit a double, for [b ≠ 0]. *)
Definition ceil_div (a b : Z) : Z := - ((- a) / b).

(** A numeric member of an object bound for JSON: the result of a
    JavaScript division followed by [Math.ceil], where dividing by zero
    gives [Infinity] (or [NaN] for [0 / 0]); or [null], which is what
    stands for [Infinity] and [NaN] in JSON text. *)
Inductive jsnumber :=
  | JsInt (z : Z)
  | JsInfinity
  | JsNaN
  | JsNull.

(** [JSON.parse(JSON.stringify(n))] *)
Definition json_number (n : jsnumber) : jsnumber :=
  match n with
  | JsInt z => JsInt z
  | JsInfinity | JsNaN | JsNull => JsNull
  end.

Definition js_ceil_quot (a b : Z) : jsnumber :=
  if decide (b = 0) then (if decide (a = 0) then JsNaN else JsInfinity)
  else JsInt (ceil_div a b).

(** [parseInt(env) || d]: [None] stands for [NaN] (variable unset or not a
    number); [0] and [NaN] are falsy and select the default. *)
Definition parseInt_or (env : option Z) (d : Z) : Z :=
  match env with
  | Some z => if decide (z = 0) then d else z
  | None => d
  end.

(** ** Strings *)

Module Js.

(** [s.split("\n")]: never empty, the empty string splits into [[""]]. *)
Fixpoint split (sep : ascii) (s : string) : list string :=
  match s with
  | "" => [""]
  | String c rest =>
      if decide (c = sep) then "" :: split sep rest
      else match split sep rest with
           | [] => [String c ""]
           | w :: ws => String c w :: ws
           end
  end.

Definition newline : ascii := "010"%char.

(** [line.startsWith(p)] *)
Fixpoint startsWith (p s : string) : bool :=
  match p, s with
  | "", _ => true
  | String a p', String b s' => if decide (a = b) then startsWith p' s' else false
  | String _ _, "" => false
  end.

(** [line.slice(n)] for [n >= 0] *)
Fixpoint slice (n : nat) (s : string) : string :=
  match n, s with
  | O, _ => s
  | S n', String _ s' => slice n' s'
  | S _, "" => ""
  end.

(** [arr.join(sep)] *)
Fixpoint join (sep : string) (l : list string) : string :=
  match l with
  | [] => ""
  | [x] => x
  | x :: rest => x +:+ sep +:+ join sep rest
  end.

(** The class [\s] of regular expressions, on code units below 256:
    tab, line feed, vertical tab, form feed, carriage return, space and
    the no-break space. *)
Definition is_space (c : ascii) : bool :=
  match c with
  | "009" | "010" | "011" | "012" | "013" | " " | "160" => true
  | _ => false
  end%char.

(** validator.js: [ltrim] removes [/^\s+/], [rtrim] walks back from the
    end while the character is in [\s]; [trim = rtrim ∘ ltrim]. *)
Fixpoint ltrim (s : string) : string :=
  match s with
  | "" => ""
  | String c rest => if is_space c then ltrim rest else s
  end.

Fixpoint rtrim (s : string) : string :=
  match s with
  | "" => ""
  | String c rest =>
      match rtrim rest with
      | "" => if is_space c then "" else String c ""
      | kept => String c kept
      end
  end.

Definition trim (s : string) : string := rtrim (ltrim s).

Fixpoint whitespace_only (s : string) : bool :=
  match s with
  | "" => true
  | String c rest => is_space c && whitespace_only rest
  end.

(** *** Values *)

(** What [JSON.parse] can return, plus [undefined] for a missing
    property.  [number] is the type of the doubles a JSON text denotes. *)
#[local] Unset Elimination Schemes.
Inductive jsval (number : Type) :=
  | JUndefined
  | JNull
  | JBool (b : bool)
  | JNum (n : number)
  | JStr (s : string)
  | JArr (items : list (jsval number))
  | JObj (fields : list (string * jsval number)).

#[local] Set Elimination Schemes.

Arguments JUndefined {number}.
Arguments JNull {number}.
Arguments JBool {number} b.
Arguments JNum {number} n.
Arguments JStr {number} s.
Arguments JArr {number} items.
Arguments JObj {number} fields.

(** The built-ins of the language that the relay calls. *)
Class Runtime := {
  number : Type;
  (** a number is falsy when it is [0], [-0] or [NaN] *)
  number_truthy : number → bool;
  (** [JSON.parse(text)]; [None] when it throws [SyntaxError] *)
  JSON_parse : string → option (jsval number);
  (** the string conversion of [+=] on values that are not strings *)
  ToString_other : jsval number → string
}.

Section Values.
Context `{Runtime}.

Definition value := jsval number.

(** [if (v)] *)
Definition truthy (v : value) : bool :=
  match v with
  | JUndefined | JNull => false
  | JBool b => b
  | JNum n => number_truthy n
  | JStr s => if decide (s = "") then false else true
  | JArr _ | JObj _ => true
  end.

(** [str += v] appends [ToString v]. *)
Definition ToString (v : value) : string :=
  match v with
  | JStr s => s
  | _ => ToString_other v
  end.

Fixpoint assoc (k : string) (fields : list (string * value)) : option value :=
  match fields with
  | [] => None
  | (k', v) :: rest => if decide (k = k') then Some v else assoc k rest
  end.

(** [v.k] for a property [k] that no prototype defines: [None] when the
    access throws [TypeError] (on [undefined] and [null]). *)
Definition get (k : string) (v : value) : option value :=
  match v with
  | JUndefined | JNull => None
  | JObj fields => Some (default JUndefined (assoc k fields))
  | _ => Some JUndefined
  end.
End Values.

End Js.

(** ** Logging *)

Inductive log_level := LogInfo | LogWarn | LogError.

Definition log_entry : Type := log_level * string.

(** ** Errors

    The fields of a thrown error that the handlers inspect: [error.code]
    (kept when it is a string), [error.response] (status and data of an
    HTTP error response) and [error.message].

    [error.response.data] is the body of the HTTP response.  The route
    calls the providers with [responseType: "stream"], and axios then
    hands the body over as a stream, for an error status too; a stream is
    not a value [JSON.stringify] can write.  An error raised elsewhere
    may carry a body that was read, a text. *)

Inductive response_data :=
  | DataStream
  | DataText (text : string).

Record js_error := mkError {
  e_code : option string;
  e_response : option (Z * response_data);
  e_message : string
}.

(** The [TypeError] of [JSON.stringify] on a stream, whose socket and
    parser refer to each other. *)
Definition circular_structure : js_error :=
  {| e_code := None; e_response := None;
     e_message := "Converting circular structure to JSON" |}.

(** ** Response bodies *)

Record ChatTurn := mkChatTurn {
  user_id : string;
  message : string;
  response : string;
  timestamp : Z
}.

Record history_page := mkPage {
  chats : list ChatTurn;
  totalPages : jsnumber;
  currentPage : Z
}.

(** [JSON.parse(JSON.stringify(page))]: the page that the JSON text of
    [page] denotes. *)
Definition json_page (page : history_page) : history_page :=
  {| chats := chats page;
     totalPages := json_number (totalPages page);
     currentPage := currentPage page |}.

(** One element of [errors.array()] of express-validator. *)
Record validation_error := mkValidationError {
  v_path : string;
  v_msg : string
}.

Inductive json_body :=
  | ErrorBody (error msg : string)          (* { error, message } *)
  | ValidationBody (errors : list validation_error)  (* { errors } *)
  | HistoryBody (page : history_page).      (* { chats, totalPages, currentPage } *)

(** What a body serialises to: does the JSON object carry the two fields
    [error] and [message]? *)
Definition has_error_and_message (b : json_body) : bool :=
  match b with
  | ErrorBody _ _ => true
  | ValidationBody _ => false
  | HistoryBody _ => false
  end.

(** ** Rate governor *)

Module RateGovernor.

Record config := mkConfig {
  RATE_LIMIT_WINDOW : Z;
  MAX_REQUESTS : Z
}.

(** [parseInt(process.env.RATE_LIMIT_WINDOW_MS) || 900000] and
    [parseInt(process.env.RATE_LIMIT_MAX_REQUESTS) || 100]. *)
Definition config_of_env (window_ms max_requests : option Z) : config :=
  {| RATE_LIMIT_WINDOW := parseInt_or window_ms 900000;
     MAX_REQUESTS := parseInt_or max_requests 100 |}.

Definition default_config : config := config_of_env None None.

Record rate_entry := mkEntry {
  count : Z;
  window_start : Z        (* the [timestamp] field *)
}.

Inductive outcome :=
  | Next
  | Respond (status : Z) (body : json_body).

(** "Clean up old entries": the loop deletes every entry with
    [now - value.timestamp > RATE_LIMIT_WINDOW]. *)
Definition stale (cfg : config) (now : Z) (e : rate_entry) : Prop :=
  now - window_start e > RATE_LIMIT_WINDOW cfg.

#[global] Instance stale_dec cfg now e : Decision (stale cfg now e).
Proof. unfold stale. apply _. Defined.

Definition sweep (cfg : config) (now : Z) (m : gmap string rate_entry)
    : gmap string rate_entry :=
  filter (λ kv, ¬ stale cfg now kv.2) m.

(** [Math.ceil((RATE_LIMIT_WINDOW - (now - userLimit.timestamp)) / 1000)] *)
Definition retry_after (cfg : config) (now : Z) (e : rate_entry) : Z :=
  ceil_div (RATE_LIMIT_WINDOW cfg - (now - window_start e)) 1000.

Definition rate_limit_body (seconds : Z) : json_body :=
  ErrorBody "Rate limit exceeded"
    ("Please wait " +:+ pretty seconds +:+ " seconds before trying again").

Definition rateLimit (cfg : config) (now : Z) (userId : string)
    (m : gmap string rate_entry) : gmap string rate_entry * outcome :=
  let m1 := sweep cfg now m in
  match m1 !! userId with
  | Some userLimit =>
      if decide (count userLimit >= MAX_REQUESTS cfg) then
        (m1, Respond 429 (rate_limit_body (retry_after cfg now userLimit)))
      else
        (<[userId := {| count := count userLimit + 1;
                        window_start := window_start userLimit |}]> m1,
         Next)
  | None =>
      (<[userId := {| count := 1; window_start := now |}]> m1, Next)
  end.

(** A user sending requests at the given instants, starting from [m]. *)
Fixpoint run (cfg : config) (userId : string) (times : list Z)
    (m : gmap string rate_entry) : gmap string rate_entry * list outcome :=
  match times with
  | [] => (m, [])
  | now :: rest =>
      let '(m1, o) := rateLimit cfg now userId m in
      let '(m2, os) := run cfg userId rest m1 in
      (m2, o :: os)
  end.

End RateGovernor.


(** ** Redis client

    The commands of the node-redis client that [utils/cache.js] issues.
    The only values the application caches are history pages, as JSON
    text; the model stores the page that the text denotes.  A key set
    with [EX n] is gone [n] seconds later; [SET] with an expiry that is
    not positive is an error and leaves the key as it was.  [DEL] removes
    the key named by its argument and nothing else: Redis does not
    interpret glob characters in it.  A command on a client without a
    connection is rejected. *)

Module Redis.

Record entry := mkEntry {
  payload : history_page;
  expires_at : Z            (* milliseconds *)
}.

Record client := mkClient {
  connected : bool;
  keys : gmap string entry
}.

Definition closed : js_error :=
  {| e_code := None; e_response := None; e_message := "The client is closed" |}.

Definition live (now : Z) (e : entry) : option history_page :=
  if decide (now < expires_at e) then Some (payload e) else None.

Definition get (c : client) (now : Z) (key : string)
    : js_error + option history_page :=
  if connected c then inr (keys c !! key ≫= live now) else inl closed.

Definition invalid_expire : js_error :=
  {| e_code := None; e_response := None;
     e_message := "ERR invalid expire time in 'set' command" |}.

Definition set (c : client) (now : Z) (key : string) (v : history_page)
    (EX : Z) : js_error + client :=
  if connected c then
    if decide (EX ≤ 0) then inl invalid_expire
    else
      inr {| connected := true;
             keys := <[key := {| payload := v; expires_at := now + EX * 1000 |}]> (keys c) |}
  else inl closed.

Definition del (c : client) (key : string) : js_error + client :=
  if connected c then
    inr {| connected := true; keys := delete key (keys c) |}
  else inl closed.

End Redis.

(** ** Chat store *)

(** Modelled from the spec: [models/Chat.js], the Mongoose model behind
    [Chat.find], [Chat.countDocuments] and [new Chat(..).save()], is not
    among the sources.  The spec describes the store as a durable
    append-only record of (user, message, response, timestamp) supporting
    insert, paginated query by user and count; a turn is stamped with the
    time of its creation.  [find] filters by owner, orders by timestamp
    descending, skips and limits as MongoDB does (limit [0] means no limit,
    a negative limit is taken by its absolute value, a negative skip is
    rejected).  [fault] is the error every operation fails with while the
    store is unreachable. *)
Module ChatStore.

Record t := mkStore {
  fault : option js_error;
  docs : list ChatTurn        (* in insertion order *)
}.

Definition newer_or_equal (a b : ChatTurn) : Prop := timestamp b ≤ timestamp a.

#[global] Instance newer_or_equal_dec : RelDecision newer_or_equal.
Proof. intros a b. unfold newer_or_equal. apply _. Defined.

#[global] Instance newer_or_equal_trans : Transitive newer_or_equal.
Proof. intros a b c. unfold newer_or_equal. lia. Qed.

#[global] Instance newer_or_equal_total : Total newer_or_equal.
Proof. intros a b. unfold newer_or_equal. lia. Qed.

Definition owned_by (userId : string) (l : list ChatTurn) : list ChatTurn :=
  filter (λ c, user_id c = userId) l.

(** [find({ user_id }).sort({ timestamp: -1 })] *)
Definition newest_first (userId : string) (l : list ChatTurn) : list ChatTurn :=
  merge_sort newer_or_equal (owned_by userId l).

Definition bad_skip : js_error :=
  {| e_code := None; e_response := None;
     e_message := "Skip value must be non-negative" |}.

Definition page_of (skip limit : Z) (l : list ChatTurn)
    : js_error + list ChatTurn :=
  if decide (skip < 0) then inl bad_skip
  else
    let rest := drop (Z.to_nat skip) l in
    inr (if decide (limit = 0) then rest
         else take (Z.to_nat (Z.abs limit)) rest).

Definition find (st : t) (userId : string) (skip limit : Z)
    : js_error + list ChatTurn :=
  match fault st with
  | Some e => inl e
  | None => page_of skip limit (newest_first userId (docs st))
  end.

Definition countDocuments (st : t) (userId : string) : js_error + Z :=
  match fault st with
  | Some e => inl e
  | None => inr (Z.of_nat (length (owned_by userId (docs st))))
  end.

Definition save (st : t) (c : ChatTurn) : js_error + t :=
  match fault st with
  | Some e => inl e
  | None => inr {| fault := None; docs := docs st ++ [c] |}
  end.

End ChatStore.

(** ** Inference provider *)

Record gen_params := mkParams {
  max_new_tokens : Z;
  temperature : Q;
  top_p : Q;
  return_full_text : bool;
  stream : bool
}.

(** One [axios.post(url, { inputs, parameters }, { headers, responseType })]. *)
Record axios_request := mkRequest {
  url : string;
  inputs : string;
  parameters : gen_params;
  authorization : string;
  responseType : string
}.

(** How a response stream ends: an [end] event or an [error] event. *)
Inductive ending :=
  | StreamEnd
  | StreamError (e : js_error).

(** The events of [response.data]: [data] events carrying chunks, then one
    terminal event. *)
Record provider_stream := mkStream {
  chunks : list string;
  last_event : ending
}.

Inductive axios_result :=
  | Resolved (s : provider_stream)
  | Rejected (e : js_error).

(** The outside world as the route sees it: what each request yields. *)
Definition provider : Type := axios_request → axios_result.

(** ** Completions

    A computation returns normally or throws. *)

Inductive completion (A : Type) :=
  | Normal (a : A)
  | Throw (e : js_error).
Arguments Normal {A} a.
Arguments Throw {A} e.

(** ** The response object and the state of the server *)

Section State.
Context {number : Type}.

(** An event-stream frame is written as [data: <payload>] followed by an
    empty line; the payload is [{"choices":[{"delta":{"content":c}}]}],
    the literal [[DONE]], or [{"error":text}]. *)
Inductive sse_frame :=
  | Delta (content : Js.jsval number)
  | Done
  | ErrorFrame (text : string).

Inductive res_op :=
  | SetHeader (name v : string)                 (* res.setHeader(name, v) *)
  | SendJson (status : Z) (body : json_body)    (* res.status(status).json(body) *)
  | SetStatus (status : Z)                      (* res.status(status), the [json] after it throwing *)
  | ResWrite (frame : sse_frame)                (* res.write(frame) *)
  | ResEnd.                                     (* res.end() *)

(** Both [res.json] and [res.end] finish the response. *)
Definition closes (op : res_op) : bool :=
  match op with
  | SendJson _ _ | ResEnd => true
  | SetHeader _ _ | SetStatus _ | ResWrite _ => false
  end.

Definition count_closes (ops : list res_op) : nat :=
  length (List.filter closes ops).

Record state := mkState {
  rateLimitCache : gmap string RateGovernor.rate_entry;
  redis : Redis.client;
  db : ChatStore.t;
  logs : list log_entry;
  requests : list axios_request;   (* provider calls issued, oldest first *)
  res : list res_op                (* operations on [res], oldest first *)
}.

Definition with_rateLimitCache (m : gmap string RateGovernor.rate_entry) (s : state) : state :=
  mkState m (redis s) (db s) (logs s) (requests s) (res s).
Definition with_redis (c : Redis.client) (s : state) : state :=
  mkState (rateLimitCache s) c (db s) (logs s) (requests s) (res s).
Definition with_db (d : ChatStore.t) (s : state) : state :=
  mkState (rateLimitCache s) (redis s) d (logs s) (requests s) (res s).
Definition with_logs (l : list log_entry) (s : state) : state :=
  mkState (rateLimitCache s) (redis s) (db s) l (requests s) (res s).
Definition with_requests (l : list axios_request) (s : state) : state :=
  mkState (rateLimitCache s) (redis s) (db s) (logs s) l (res s).
Definition with_res (l : list res_op) (s : state) : state :=
  mkState (rateLimitCache s) (redis s) (db s) (logs s) (requests s) l.

(** The next request comes with a response object of its own. *)
Definition next_request (s : state) : state := with_res [] s.

End State.

Arguments sse_frame : clear implicits.
Arguments res_op : clear implicits.
Arguments state : clear implicits.

(** ** The server *)

Section Server.
Context `{Js.Runtime}.

#[local] Abbreviation state := (state Js.number).
#[local] Abbreviation res_op := (res_op Js.number).

(** *** Computations: state, and exceptions that keep the state *)

Definition M (A : Type) : Type := state → completion A * state.

#[global] Instance M_ret : MRet M := λ A a s, (Normal a, s).

#[global] Instance M_bind : MBind M := λ A B f m s,
  match m s with
  | (Normal a, s') => f a s'
  | (Throw e, s') => (Throw e, s')
  end.

Definition throw {A} (e : js_error) : M A := λ s, (Throw e, s).

(** [try { body } catch (e) { handler(e) }] *)
Definition try_catch {A} (body : M A) (handler : js_error → M A) : M A := λ s,
  match body s with
  | (Normal a, s') => (Normal a, s')
  | (Throw e, s') => handler e s'
  end.

(** An operation of a collaborator that reads the state and either fails
    or returns a value and a new state. *)
Definition attempt {A} (op : state → js_error + A * state) : M A := λ s,
  match op s with
  | inl e => (Throw e, s)
  | inr (a, s') => (Normal a, s')
  end.

Definition logger (level : log_level) (text : string) : M unit := λ s,
  (Normal tt, with_logs (logs s ++ [(level, text)]) s).

Definition res_do (op : res_op) : M unit := λ s,
  (Normal tt, with_res (res s ++ [op]) s).

(** *** utils/cache.js *)

Definition getCache (now : Z) (key : string) : M (option history_page) :=
  try_catch
    (attempt (λ s, match Redis.get (redis s) now key with
                   | inl e => inl e
                   | inr data => inr (data, s)
                   end))
    (λ error, logger LogError "Redis Get Error:";; mret None).

(** [JSON.stringify(value)] is what is stored, [JSON.parse(data)] what
    [getCache] returns: the page comes back as [json_page] of it. *)
Definition setCache (now : Z) (key : string) (v : history_page)
    (expireTime : Z) : M unit :=
  try_catch
    (attempt (λ s, match Redis.set (redis s) now key (json_page v) expireTime with
                   | inl e => inl e
                   | inr c => inr (tt, with_redis c s)
                   end))
    (λ error, logger LogError "Redis Set Error:").

Definition deleteCache (key : string) : M unit :=
  try_catch
    (attempt (λ s, match Redis.del (redis s) key with
                   | inl e => inl e
                   | inr c => inr (tt, with_redis c s)
                   end))
    (λ error, logger LogError "Redis Delete Error:").


(** *** routes/chatRoutes.js: configuration *)

Definition PRIMARY_MODEL : string := "mistralai/Mistral-7B-Instruct-v0.2".
Definition FALLBACK_MODEL : string := "meta-llama/Llama-2-7b-chat-hf".
Definition HUGGINGFACE_API_URL : string :=
  "https://api-inference.huggingface.co/models/" +:+ PRIMARY_MODEL.
Definition FALLBACK_API_URL : string :=
  "https://api-inference.huggingface.co/models/" +:+ FALLBACK_MODEL.

(** [process.env.HUGGINGFACE_API_KEY] and the rate-limit settings. *)
Variable HUGGINGFACE_API_KEY : string.
Variable cfg : RateGovernor.config.

(** *** Middleware *)

(** [rateLimit] on the process-wide map. *)
Definition rateLimit (now : Z) (userId : string) : M RateGovernor.outcome := λ s,
  let '(m, o) := RateGovernor.rateLimit cfg now userId (rateLimitCache s) in
  (Normal o, with_rateLimitCache m s).

(** [validateChatRequest]: the chain [body("message").trim().notEmpty()]
    replaces the field by its trimmed text (an absent field counts as the
    empty string) and records an error when nothing is left. *)
Definition validateChatRequest (body_message : option string)
    : string * list validation_error :=
  let message := Js.trim (default "" body_message) in
  (message,
   if decide (message = "") then
     [ {| v_path := "message"; v_msg := "Message cannot be empty" |} ]
   else []).

(** *** History *)

Definition cacheKey (userId : string) (page limit : Z) : string :=
  "chat_history:" +:+ userId +:+ ":" +:+ pretty page +:+ ":" +:+ pretty limit.

(** [router.get("/history")]; [q_page] and [q_limit] are the query
    parameters, [None] when absent. *)
Definition get_history (now : Z) (userId : string) (q_page q_limit : option Z)
    : M unit :=
  try_catch
    (let page := default 1 q_page in
     let limit := default 20 q_limit in
     let key := cacheKey userId page limit in
     cachedData ← getCache now key;
     match cachedData with
     | Some data => res_do (SendJson 200 (HistoryBody data))
     | None =>
         chatHistory ← attempt (λ s,
           match ChatStore.find (db s) userId ((page - 1) * limit) (limit * 1) with
           | inl e => inl e
           | inr l => inr (l, s)
           end);
         total ← attempt (λ s,
           match ChatStore.countDocuments (db s) userId with
           | inl e => inl e
           | inr n => inr (n, s)
           end);
         let response := {| chats := chatHistory;
                            totalPages := js_ceil_quot total limit;
                            currentPage := page |} in
         setCache now key response 300;;
         res_do (SendJson 200 (HistoryBody response))
     end)
    (λ error,
       logger LogError "Error fetching chat history:";;
       res_do (SendJson 500 (ErrorBody "Internal server error" (e_message error)))).


(** *** Chat: prompt assembly *)

Record chat_message := mkMessage {
  role : string;
  content : string
}.

(** [chatHistory.map(chat => [{user..}, {assistant..}]).flat()] followed
    by [messages.push({ role: "user", content: message })]. *)
Definition build_messages (chatHistory : list ChatTurn) (msg : string)
    : list chat_message :=
  concat (map (λ chat, [ {| role := "user"; content := message chat |};
                         {| role := "assistant"; content := response chat |} ])
              chatHistory)
  ++ [ {| role := "user"; content := msg |} ].

Definition format_message (m : chat_message) : string :=
  (if decide (role m = "user") then "<s>[INST] " else "")
  +:+ content m
  +:+ (if decide (role m = "user") then " [/INST]" else "").

Definition build_prompt (chatHistory : list ChatTurn) (msg : string) : string :=
  Js.join (String Js.newline "") (map format_message (build_messages chatHistory msg)).

(** *** Chat: provider calls *)

Definition primary_request (prompt : string) : axios_request :=
  {| url := HUGGINGFACE_API_URL;
     inputs := prompt;
     parameters := {| max_new_tokens := 1000;
                      temperature := 0.7;
                      top_p := 0.95;
                      return_full_text := false;
                      stream := true |};
     authorization := "Bearer " +:+ HUGGINGFACE_API_KEY;
     responseType := "stream" |}.

Definition fallback_request (prompt : string) : axios_request :=
  {| url := FALLBACK_API_URL;
     inputs := prompt;
     parameters := {| max_new_tokens := 1000;
                      temperature := 0.7;
                      top_p := 0.95;
                      return_full_text := false;
                      stream := true |};
     authorization := "Bearer " +:+ HUGGINGFACE_API_KEY;
     responseType := "stream" |}.

(** [await axios.post(..)]: the call is issued, then resolves to a
    response stream or rejects. *)
Definition axios_post (hf : provider) (r : axios_request) : M provider_stream := λ s,
  let s' := with_requests (requests s ++ [r]) s in
  match hf r with
  | Resolved response => (Normal response, s')
  | Rejected e => (Throw e, s')
  end.

(** *** Chat: the route handler

    [handleStreamResponse] only registers the [data], [end] and [error]
    listeners and returns, so awaiting it never throws; the handler's
    result is the stream the listeners were attached to, if any.  In the
    outer catch, [res.status(..).json({ .., message: error.response.data })]
    sets the status and then serialises the body: on a body that is a
    stream [JSON.stringify] throws, nothing is sent and the handler
    rejects. *)
Definition chat_handler (hf : provider) (userId msg : string)
    : M (option provider_stream) :=
  try_catch
    (logger LogInfo ("New chat request from user " +:+ userId);;
     res_do (SetHeader "Content-Type" "text/event-stream");;
     res_do (SetHeader "Cache-Control" "no-cache");;
     res_do (SetHeader "Connection" "keep-alive");;
     chatHistory ← attempt (λ s,
       match ChatStore.find (db s) userId 0 5 with
       | inl e => inl e
       | inr l => inr (l, s)
       end);
     let prompt := build_prompt chatHistory msg in
     try_catch
       (response ← axios_post hf (primary_request prompt);
        mret (Some response))
       (λ primaryError,
          logger LogWarn "Primary model failed, trying fallback:";;
          try_catch
            (fallbackResponse ← axios_post hf (fallback_request prompt);
             mret (Some fallbackResponse))
            (λ fallbackError,
               logger LogError "Both models failed:";;
               throw fallbackError)))
    (λ error,
       logger LogError "Chat error:";;
       (if decide (e_code error = Some "ECONNABORTED") then
          res_do (SendJson 504 (ErrorBody "Request timeout"
                                  "AI service took too long to respond"))
        else
          match e_response error with
          | Some (status, DataText data) =>
              res_do (SendJson status (ErrorBody "AI service error" data))
          | Some (status, DataStream) =>       (* [res.json] throws on the stream *)
              res_do (SetStatus status);;
              throw circular_structure
          | None =>
              res_do (SendJson 500 (ErrorBody "Server error" (e_message error)))
          end);;
       mret None).

(** [router.post("/", auth, validateChatRequest, handleValidationErrors,
    rateLimit, handler)] for an authenticated user. *)
Definition post_chat (hf : provider) (now : Z) (userId : string)
    (body_message : option string) : M (option provider_stream) :=
  let '(msg, errors) := validateChatRequest body_message in
  match errors with
  | _ :: _ => res_do (SendJson 400 (ValidationBody errors));; mret None
  | [] =>
      o ← rateLimit now userId;
      match o with
      | RateGovernor.Respond status body => res_do (SendJson status body);; mret None
      | RateGovernor.Next => chat_handler hf userId msg
      end
  end.

(** *** Chat: the stream relay *)

Definition on_line (line fullResponse : string) : M string :=
  if Js.startsWith "data: " line then
    match Js.JSON_parse (Js.slice 6 line) with
    | None =>                                   (* SyntaxError *)
        logger LogError "Error parsing streaming data:";; mret fullResponse
    | Some data =>
        match Js.get "generated_text" data with
        | None =>                               (* TypeError *)
            logger LogError "Error parsing streaming data:";; mret fullResponse
        | Some generated_text =>
            if Js.truthy generated_text then
              res_do (ResWrite (Delta generated_text));;
              mret (fullResponse +:+ Js.ToString generated_text)
            else mret fullResponse
        end
    end
  else mret fullResponse.

Fixpoint on_lines (lines : list string) (fullResponse : string) : M string :=
  match lines with
  | [] => mret fullResponse
  | line :: rest => acc ← on_line line fullResponse; on_lines rest acc
  end.

(** The [data] listener. *)
Definition on_data (chunk fullResponse : string) : M string :=
  on_lines (Js.split Js.newline chunk) fullResponse.

Fixpoint on_chunks (cs : list string) (fullResponse : string) : M string :=
  match cs with
  | [] => mret fullResponse
  | chunk :: rest => acc ← on_data chunk fullResponse; on_chunks rest acc
  end.

(** The [end] listener; [now] is the time the turn is created. *)
Definition on_end (now : Z) (userId msg fullResponse : string) : M unit :=
  try_catch
    (attempt (λ s,
       match ChatStore.save (db s)
               {| user_id := userId; message := msg;
                  response := fullResponse; timestamp := now |} with
       | inl e => inl e
       | inr d => inr (tt, with_db d s)
       end);;
     deleteCache ("chat_history:" +:+ userId +:+ ":*");;
     res_do (ResWrite Done);;
     res_do ResEnd)
    (λ error,
       logger LogError "Error saving chat:";;
       res_do (ResWrite (ErrorFrame "Error saving chat"));;
       res_do ResEnd).

(** The [error] listener. *)
Definition on_error (error : js_error) : M unit :=
  logger LogError "Stream error:";;
  res_do (ResWrite (ErrorFrame "Stream error"));;
  res_do ResEnd.

(** The listeners run on the events of the stream. *)
Definition handleStreamResponse (response : provider_stream) (now : Z)
    (userId msg : string) : M unit :=
  fullResponse ← on_chunks (chunks response) "";
  match last_event response with
  | StreamEnd => on_end now userId msg fullResponse
  | StreamError e => on_error e
  end.

(** A whole submission: the request at [now], the end of the stream at
    [now_end]. *)
Definition chat_submission (hf : provider) (now now_end : Z) (userId : string)
    (body_message : option string) : M unit :=
  attached ← post_chat hf now userId body_message;
  match attached with
  | Some response =>
      handleStreamResponse response now_end userId
        (validateChatRequest body_message).1
  | None => mret tt
  end.

End Server.

(** ** The relay, read as a function of the stream

    The wording of the specification: the stream is a sequence of frames,
    a frame that parses and carries a generated-text field contributes one
    fragment, the others contribute nothing. *)

Section RelayReading.
Context `{Js.Runtime}.

#[local] Abbreviation state := (state Js.number).
#[local] Abbreviation res_op := (res_op Js.number).

Definition concat_strings (l : list string) : string :=
  foldr String.append "" l.

Definition lines_of (cs : list string) : list string :=
  concat (map (Js.split Js.newline) cs).

(** The frames among some lines: those introduced by [data: ]. *)
Definition frames_in (lines : list string) : list string :=
  List.filter (Js.startsWith "data: ") lines.

Definition frames (cs : list string) : list string :=
  frames_in (lines_of cs).

(** The [generated_text] member of a frame's payload; [None] when the
    frame does not parse. *)
Definition generated_text_of (frame : string) : option Js.value :=
  match Js.JSON_parse (Js.slice 6 frame) with
  | Some data => Js.get "generated_text" data
  | None => None
  end.

(** The generated-text field of a frame that parsed, as text. *)
Definition text_field (frame : string) : option string :=
  match generated_text_of frame with
  | Some (Js.JStr text) => Some text
  | _ => None
  end.

Definition generated_texts (cs : list string) : list string :=
  omap text_field (frames cs).

(** The values the relay forwards: the truthy fields, in order. *)
Definition forwarded_in (lines : list string) : list Js.value :=
  List.filter Js.truthy (omap generated_text_of (frames_in lines)).

Definition forwarded (cs : list string) : list Js.value :=
  forwarded_in (lines_of cs).

(** The provider keeps to its format: where a frame has a
    [generated_text] member, it is a string or [null]. *)
Definition text_or_absent (v : Js.value) : bool :=
  match v with
  | Js.JUndefined | Js.JNull | Js.JStr _ => true
  | Js.JBool _ | Js.JNum _ | Js.JArr _ | Js.JObj _ => false
  end.

Definition text_typed (cs : list string) : bool :=
  forallb text_or_absent (omap generated_text_of (frames cs)).

(** One log entry per frame that failed to parse. *)
Definition parse_failures_in (lines : list string) : list log_entry :=
  flat_map (λ frame, match generated_text_of frame with
                     | None => [(LogError, "Error parsing streaming data:")]
                     | Some _ => []
                     end)
           (frames_in lines).

(** The state after the listeners appended [ops] to the response and
    [entries] to the log. *)
Definition relayed (s : state) (ops : list res_op) (entries : list log_entry) : state :=
  mkState (rateLimitCache s) (redis s) (db s) (logs s ++ entries)
          (requests s) (res s ++ ops).

(** The turn the [end] listener builds. *)
Definition new_turn (now : Z) (userId msg fullResponse : string) : ChatTurn :=
  {| user_id := userId; message := msg; response := fullResponse; timestamp := now |}.

Definition deltas (vs : list Js.value) : list res_op :=
  map (λ v, ResWrite (Delta v)) vs.

End RelayReading.

(** ** The submission path, read as the specification words it *)

(** The context window: the five newest turns of the user. *)
Definition recent (userId : string) (l : list ChatTurn) : list ChatTurn :=
  take 5 (ChatStore.newest_first userId l).

(** A user turn between instruction markers. *)
Definition instruction (text : string) : string :=
  "<s>[INST] " +:+ text +:+ " [/INST]".

(** Each turn of the window gives a user turn and an assistant turn; the
    new message is the final turn; turns are separated by a line feed. *)
Definition prompt_turns (history : list ChatTurn) (msg : string) : list string :=
  flat_map (λ t, [instruction (message t); response t]) history
  ++ [instruction msg].

(** The prompt spelled out, turn by turn: the message of a turn between
    the markers, a line feed, its response, a line feed, and so on; the
    new message between the markers comes last, with nothing after it. *)
Fixpoint prompt_of (history : list ChatTurn) (msg : string) : string :=
  match history with
  | [] => "<s>[INST] " +:+ msg +:+ " [/INST]"
  | t :: older =>
      ("<s>[INST] " +:+ message t +:+ " [/INST]") +:+ String Js.newline ""
      +:+ response t +:+ String Js.newline ""
      +:+ prompt_of older msg
  end.

(** The kinds of failure of a submission before a stream is relayed
    that are answered with a JSON body. *)
Inductive failure :=
  | ValidationFailure
  | RateLimited (seconds : Z)
  | Timeout
  | Uncategorized (text : string).

(** The kind of a thrown error: a timeout when its code says so, else
    uncategorized when it carries no response.  An error that carries an
    HTTP response is a provider error and has no kind here: the reply to
    it depends on the body it carries, see [error_report]. *)
Definition classify (e : js_error) : option failure :=
  if decide (e_code e = Some "ECONNABORTED") then Some Timeout
  else match e_response e with
       | Some _ => None
       | None => Some (Uncategorized (e_message e))
       end.

(** Status code and body by kind. *)
Definition reply (f : failure) : Z * json_body :=
  match f with
  | ValidationFailure =>
      (400, ValidationBody [ {| v_path := "message"; v_msg := "Message cannot be empty" |} ])
  | RateLimited seconds =>
      (429, ErrorBody "Rate limit exceeded"
              ("Please wait " +:+ pretty seconds +:+ " seconds before trying again"))
  | Timeout =>
      (504, ErrorBody "Request timeout" "AI service took too long to respond")
  | Uncategorized text =>
      (500, ErrorBody "Server error" text)
  end.

(** Does the outer catch of the handler hand a stream to [res.json]?  It
    does for an error that is not a timeout and carries a response whose
    body is a stream. *)
Definition unserialisable (e : js_error) : bool :=
  if decide (e_code e = Some "ECONNABORTED") then false
  else match e_response e with
       | Some (_, DataStream) => true
       | Some (_, DataText _) | None => false
       end.

(** The operations of the outer catch on the response, by error. *)
Definition error_report {number : Type} (e : js_error) : list (res_op number) :=
  if decide (e_code e = Some "ECONNABORTED") then
    [SendJson 504 (ErrorBody "Request timeout" "AI service took too long to respond")]
  else match e_response e with
       | Some (status, DataText data) =>
           [SendJson status (ErrorBody "AI service error" data)]
       | Some (status, DataStream) => [SetStatus status]
       | None => [SendJson 500 (ErrorBody "Server error" (e_message e))]
       end.

(** How the handler completes after the outer catch. *)
Definition caught {A : Type} (e : js_error) : completion (option A) :=
  if unserialisable e then Throw circular_structure else Normal None.

Definition sse_headers {number : Type} : list (res_op number) :=
  [ SetHeader "Content-Type" "text/event-stream";
    SetHeader "Cache-Control" "no-cache";
    SetHeader "Connection" "keep-alive" ].

Section SubmissionReading.
Context `{Js.Runtime}.
Variable HUGGINGFACE_API_KEY : string.
Variable cfg : RateGovernor.config.

(** The rate governor lets the request of [userId] at [now] through. *)
Definition passes_rate_limit (now : Z) (userId : string) (s : state Js.number) : Prop :=
  (RateGovernor.rateLimit cfg now userId (rateLimitCache s)).2 = RateGovernor.Next.

(** How a submission fails before a stream is relayed, with a failure
    of one of the kinds above: its message is rejected, the rate governor
    denies it, the history cannot be read, or both providers reject the
    call. *)
Inductive pre_stream_failure (hf : provider) (now : Z) (userId : string)
    (body_message : option string) (s : state Js.number) : failure → Prop :=
  | message_rejected :
      Js.trim (default "" body_message) = "" →
      pre_stream_failure hf now userId body_message s ValidationFailure
  | rate_denied (entry : RateGovernor.rate_entry) :
      Js.trim (default "" body_message) ≠ "" →
      RateGovernor.sweep cfg now (rateLimitCache s) !! userId = Some entry →
      RateGovernor.count entry >= RateGovernor.MAX_REQUESTS cfg →
      pre_stream_failure hf now userId body_message s
        (RateLimited (RateGovernor.retry_after cfg now entry))
  | history_unreadable (e : js_error) (f : failure) :
      Js.trim (default "" body_message) ≠ "" →
      passes_rate_limit now userId s →
      ChatStore.fault (db s) = Some e →
      classify e = Some f →
      pre_stream_failure hf now userId body_message s f
  | providers_rejected (e1 e2 : js_error) (f : failure) :
      Js.trim (default "" body_message) ≠ "" →
      passes_rate_limit now userId s →
      ChatStore.fault (db s) = None →
      hf (primary_request HUGGINGFACE_API_KEY
            (build_prompt (recent userId (ChatStore.docs (db s)))
                          (Js.trim (default "" body_message)))) = Rejected e1 →
      hf (fallback_request HUGGINGFACE_API_KEY
            (build_prompt (recent userId (ChatStore.docs (db s)))
                          (Js.trim (default "" body_message)))) = Rejected e2 →
      classify e2 = Some f →
      pre_stream_failure hf now userId body_message s f.

End SubmissionReading.

(** ** A concrete runtime

    Integers for numbers and a reader for the two payload shapes that occur
    in the examples: an object whose only member is [generated_text], bound
    to [null] or to a string literal without escapes.  On these texts it
    agrees with [JSON.parse]; it reports every other text as a syntax
    error. *)

Module Sample.

Definition quote : ascii := "034"%char.
Definition backslash : ascii := "092"%char.

Fixpoint strip_prefix (p s : string) : option string :=
  match p, s with
  | "", _ => Some s
  | String a p', String b s' => if decide (a = b) then strip_prefix p' s' else None
  | String _ _, "" => None
  end.

(** The characters up to the closing quote, and what follows it. *)
Fixpoint string_literal (s : string) : option (string * string) :=
  match s with
  | "" => None
  | String c rest =>
      if decide (c = quote) then Some ("", rest)
      else if decide (c = backslash) then None
      else if decide (nat_of_ascii c < 32)%nat then None
      else match string_literal rest with
           | Some (body, tail) => Some (String c body, tail)
           | None => None
           end
  end.

Definition member_name : string :=
  "{" +:+ String quote "generated_text" +:+ String quote ":".

Definition parse (text : string) : option (Js.jsval Z) :=
  match strip_prefix member_name text with
  | None => None
  | Some rest =>
      if decide (rest = "null}") then
        Some (Js.JObj [("generated_text", Js.JNull)])
      else
        match strip_prefix (String quote "") rest with
        | None => None
        | Some literal =>
            match string_literal literal with
            | Some (body, "}") => Some (Js.JObj [("generated_text", Js.JStr body)])
            | _ => None
            end
        end
  end.

(** String conversion of the values [parse] can yield besides strings;
    arrays, which it never yields, are given the empty string. *)
Definition to_string_other (v : Js.jsval Z) : string :=
  match v with
  | Js.JUndefined => "undefined"
  | Js.JNull => "null"
  | Js.JBool true => "true"
  | Js.JBool false => "false"
  | Js.JNum n => pretty n
  | Js.JStr s => s
  | Js.JArr _ => ""
  | Js.JObj _ => "[object Object]"
  end.

Definition runtime : Js.Runtime :=
  {| Js.number := Z;
     Js.number_truthy := λ n, bool_decide (n ≠ 0);
     Js.JSON_parse := parse;
     Js.ToString_other := to_string_other |}.

(** [data: {"generated_text":"<text>"}] *)
Definition text_frame (text : string) : string :=
  "data: " +:+ member_name +:+ String quote text +:+ String quote "}".

Definition empty_state : state Z :=
  {| rateLimitCache := ∅;
     redis := {| Redis.connected := true; Redis.keys := ∅ |};
     db := {| ChatStore.fault := None; ChatStore.docs := [] |};
     logs := [];
     requests := [];
     res := [] |}.

Definition lost_connection : js_error :=
  {| e_code := None; e_response := None; e_message := "connection lost" |}.

(** The store cannot be reached. *)
Definition store_down : state Z :=
  with_db {| ChatStore.fault := Some lost_connection; ChatStore.docs := [] |}
          empty_state.

Definition timed_out : js_error :=
  {| e_code := Some "ECONNABORTED"; e_response := None;
     e_message := "timeout of 30000ms exceeded" |}.

Definition service_unavailable : js_error :=
  {| e_code := Some "ERR_BAD_RESPONSE";
     e_response := Some (503, DataStream);
     e_message := "Request failed with status code 503" |}.

(** The primary endpoint times out; the fallback endpoint answers 503. *)
Definition primary_down : provider := λ r,
  if decide (url r = HUGGINGFACE_API_URL) then Rejected timed_out
  else Rejected service_unavailable.

Definition line_feed : string := String Js.newline "".

(** Two earlier turns of [u] and one of somebody else. *)
Definition talked_before : state Z :=
  with_db {| ChatStore.fault := None;
             ChatStore.docs :=
               [ mkChatTurn "u" "First" "One" 10;
                 mkChatTurn "v" "Other" "Else" 15;
                 mkChatTurn "u" "Second" "Two" 20 ] |}
          empty_state.

(** Two chunks: a frame and the empty line after it; then a frame, a
    line that does not parse, and a frame with [null]. *)
Definition hi_there : list string :=
  [ text_frame "Hi" +:+ line_feed +:+ line_feed;
    text_frame " there" +:+ line_feed +:+ "data: oops" +:+ line_feed
      +:+ "data: " +:+ member_name +:+ "null}" ].

(** The provider streams [hi_there] and ends. *)
Definition answers_hi : provider := λ _,
  Resolved {| chunks := hi_there; last_event := StreamEnd |}.

Definition connection_reset : js_error :=
  {| e_code := Some "ECONNRESET"; e_response := None; e_message := "aborted" |}.

(** The primary endpoint answers 503; the connection to the fallback
    endpoint breaks. *)
Definition fallback_unreachable : provider := λ r,
  if decide (url r = HUGGINGFACE_API_URL) then Rejected service_unavailable
  else Rejected connection_reset.

(** The primary endpoint answers with a stream that breaks before its
    first chunk; the fallback endpoint would stream [hi_there]. *)
Definition primary_breaks : provider := λ r,
  if decide (url r = HUGGINGFACE_API_URL) then
    Resolved {| chunks := []; last_event := StreamError connection_reset |}
  else answers_hi r.

Definition broken : state Z :=
  (@chat_submission runtime "key" RateGovernor.default_config primary_breaks
     1000 2000 "u" (Some "Hello") empty_state).2.

(** A user reads the history, submits a message that is answered and
    saved, then reads the history again, all within four seconds. *)
Definition first_read : state Z :=
  (@get_history runtime 0 "u" None None empty_state).2.

Definition submitted : state Z :=
  (@chat_submission runtime "key" RateGovernor.default_config answers_hi
     1000 2000 "u" (Some "Hello") (next_request first_read)).2.

Definition second_read : state Z :=
  (@get_history runtime 3000 "u" None None (next_request submitted)).2.

(** The empty page is cached, then the store goes down. *)
Definition cached_then_down : state Z :=
  with_db {| ChatStore.fault := Some lost_connection; ChatStore.docs := [] |}
          (next_request first_read).

(** Redis is not connected; the store holds the turns of [talked_before]. *)
Definition cache_down : state Z :=
  with_redis {| Redis.connected := false; Redis.keys := ∅ |} talked_before.

End Sample.


(** ** Further definitions *)

(** Does the character occur in the string? *)
Fixpoint occurs (c : ascii) (s : string) : bool :=
  match s with
  | "" => false
  | String x rest => if decide (x = c) then true else occurs c rest
  end.

(** The rate map after a sequence of requests, each a time and a user. *)
Fixpoint served (cfg : RateGovernor.config) (reqs : list (Z * string))
    (m : gmap string RateGovernor.rate_entry) : gmap string RateGovernor.rate_entry :=
  match reqs with
  | [] => m
  | (now, userId) :: rest =>
      served cfg rest (RateGovernor.rateLimit cfg now userId m).1
  end.

(** * Properties *)

#[global] Arguments Js.startsWith : simpl never.
#[global] Arguments Js.slice : simpl never.
#[global] Arguments Js.split : simpl never.

(** ** Strings *)

Lemma append_cons (c : ascii) (s t : string) :
  String c s +:+ t = String c (s +:+ t).
Proof. reflexivity. Qed.

Lemma append_empty_l (s : string) : "" +:+ s = s.
Proof. reflexivity. Qed.

Lemma append_empty_r (s : string) : s +:+ "" = s.
Proof. induction s as [|c s IH]; [done | by rewrite append_cons, IH]. Qed.

Lemma append_assoc (a b c : string) : (a +:+ b) +:+ c = a +:+ (b +:+ c).
Proof. induction a as [|x a IH]; [done | by rewrite !append_cons, IH]. Qed.

Lemma concat_strings_app (l1 l2 : list string) :
  concat_strings (l1 ++ l2) = concat_strings l1 +:+ concat_strings l2.
Proof.
  induction l1 as [|x l1 IH]; simpl; [done|].
  by rewrite IH, append_assoc.
Qed.

Lemma ltrim_whitespace_only (s : string) :
  Js.whitespace_only s = true → Js.ltrim s = "".
Proof.
  induction s as [|c s IH]; simpl; [done|].
  destruct (Js.is_space c); simpl; [exact IH | discriminate].
Qed.

Lemma trim_whitespace_only (s : string) :
  Js.whitespace_only s = true → Js.trim s = "".
Proof. intros Hs. unfold Js.trim. by rewrite (ltrim_whitespace_only s Hs). Qed.

(** ** The chat store *)

(** Newest first: ordered by timestamp, descending. *)
Lemma newest_first_sorted (userId : string) (l : list ChatTurn) :
  StronglySorted ChatStore.newer_or_equal (ChatStore.newest_first userId l).
Proof. apply StronglySorted_merge_sort; apply _. Qed.

(** ...and exactly the turns of the user. *)
Lemma newest_first_owned (userId : string) (l : list ChatTurn) :
  ChatStore.newest_first userId l ≡ₚ ChatStore.owned_by userId l.
Proof. apply merge_sort_Permutation. Qed.

Lemma elem_of_newest_first (userId : string) (l : list ChatTurn) (t : ChatTurn) :
  t ∈ ChatStore.newest_first userId l ↔ t ∈ l ∧ user_id t = userId.
Proof.
  rewrite newest_first_owned. unfold ChatStore.owned_by.
  rewrite list_elem_of_filter. tauto.
Qed.

Lemma newest_first_nil (userId : string) (l : list ChatTurn) :
  ChatStore.owned_by userId l = [] → ChatStore.newest_first userId l = [].
Proof. intros Hnone. unfold ChatStore.newest_first. by rewrite Hnone. Qed.

(** A page is a segment of the newest-first sequence: whatever comes
    before it is at least as new, whatever comes after at most as new. *)
Lemma page_is_newest (n k : nat) (sorted : list ChatTurn) (t t' : ChatTurn) :
  StronglySorted ChatStore.newer_or_equal sorted →
  t ∈ take n (drop k sorted) →
  t' ∈ drop n (drop k sorted) →
  timestamp t' ≤ timestamp t.
Proof.
  intros Hsorted Ht Ht'.
  rewrite <- (take_drop k sorted) in Hsorted.
  apply StronglySorted_app_1_r in Hsorted.
  rewrite <- (take_drop n (drop k sorted)) in Hsorted.
  exact (StronglySorted_app_1_elem_of _ _ _ _ _ Hsorted Ht Ht').
Qed.

(** ** Prompt assembly *)

Lemma format_user (text : string) :
  format_message {| role := "user"; content := text |} = instruction text.
Proof. reflexivity. Qed.

Lemma format_assistant (text : string) :
  format_message {| role := "assistant"; content := text |} = text.
Proof.
  unfold format_message. simpl. by rewrite append_empty_l, append_empty_r.
Qed.

Lemma formatted_messages (history : list ChatTurn) (msg : string) :
  map format_message (build_messages history msg) = prompt_turns history msg.
Proof.
  unfold build_messages, prompt_turns. rewrite map_app. f_equal.
  induction history as [|t rest IH]; [done|].
  simpl. by rewrite format_user, format_assistant, IH.
Qed.

Lemma join_cons (sep x : string) (rest : list string) :
  rest ≠ [] → Js.join sep (x :: rest) = x +:+ sep +:+ Js.join sep rest.
Proof. by destruct rest. Qed.

Lemma build_prompt_nil (msg : string) :
  build_prompt [] msg = instruction msg.
Proof. reflexivity. Qed.

Lemma build_prompt_cons (t : ChatTurn) (older : list ChatTurn) (msg : string) :
  build_prompt (t :: older) msg
  = instruction (message t) +:+ String Js.newline ""
    +:+ response t +:+ String Js.newline "" +:+ build_prompt older msg.
Proof.
  unfold build_prompt. rewrite !formatted_messages. unfold prompt_turns.
  cbn [flat_map]. rewrite <- !app_comm_cons, app_nil_l.
  rewrite join_cons by done. rewrite join_cons; [done|].
  by destruct (flat_map _ older).
Qed.

Lemma build_prompt_reads (history : list ChatTurn) (msg : string) :
  build_prompt history msg = prompt_of history msg.
Proof.
  induction history as [|t older IH]; [reflexivity|].
  rewrite build_prompt_cons, IH. reflexivity.
Qed.

(** ** The stream relay *)

Section RelayFacts.
Context `{Js.Runtime}.

#[local] Abbreviation state := (state Js.number).
#[local] Abbreviation res_op := (res_op Js.number).

Lemma relayed_nil (s : state) : relayed s [] [] = s.
Proof. destruct s. unfold relayed. simpl. by rewrite !app_nil_r. Qed.

Lemma relayed_relayed (s : state) ops1 l1 ops2 l2 :
  relayed (relayed s ops1 l1) ops2 l2 = relayed s (ops1 ++ ops2) (l1 ++ l2).
Proof. unfold relayed. simpl. by rewrite !app_assoc. Qed.

Lemma on_line_relayed (line acc : string) (s : state) :
  on_line line acc s =
    (Normal (acc +:+ concat_strings (map Js.ToString (forwarded_in [line]))),
     relayed s (deltas (forwarded_in [line])) (parse_failures_in [line])).
Proof.
  unfold on_line, forwarded_in, parse_failures_in, frames_in. simpl.
  destruct (Js.startsWith "data: " line) eqn:Hp; simpl.
  - unfold generated_text_of.
    destruct (Js.JSON_parse (Js.slice 6 line)) as [data|]; simpl.
    + destruct (Js.get "generated_text" data) as [g|]; simpl.
      * destruct (Js.truthy g) eqn:Hg; simpl.
        -- unfold mbind, M_bind, res_do, mret, M_ret, relayed. simpl.
           by rewrite append_empty_r, app_nil_r.
        -- unfold mret, M_ret. by rewrite append_empty_r, relayed_nil.
      * unfold mbind, M_bind, logger, mret, M_ret, relayed. simpl.
        by rewrite append_empty_r, app_nil_r.
    + unfold mbind, M_bind, logger, mret, M_ret, relayed. simpl.
      by rewrite append_empty_r, app_nil_r.
  - unfold mret, M_ret. by rewrite append_empty_r, relayed_nil.
Qed.

Lemma frames_in_app (l1 l2 : list string) :
  frames_in (l1 ++ l2) = frames_in l1 ++ frames_in l2.
Proof. unfold frames_in. apply List.filter_app. Qed.

Lemma forwarded_in_app (l1 l2 : list string) :
  forwarded_in (l1 ++ l2) = forwarded_in l1 ++ forwarded_in l2.
Proof.
  unfold forwarded_in. by rewrite frames_in_app, omap_app, List.filter_app.
Qed.

Lemma parse_failures_in_app (l1 l2 : list string) :
  parse_failures_in (l1 ++ l2) = parse_failures_in l1 ++ parse_failures_in l2.
Proof.
  unfold parse_failures_in. by rewrite frames_in_app, flat_map_app.
Qed.

Lemma deltas_app (v1 v2 : list Js.value) :
  deltas (v1 ++ v2) = deltas v1 ++ deltas v2.
Proof. apply map_app. Qed.

(** The [for] loop over the lines of a chunk. *)
Lemma on_lines_relayed (lines : list string) (acc : string) (s : state) :
  on_lines lines acc s =
    (Normal (acc +:+ concat_strings (map Js.ToString (forwarded_in lines))),
     relayed s (deltas (forwarded_in lines)) (parse_failures_in lines)).
Proof.
  revert acc s. induction lines as [|line rest IH]; intros acc s.
  - simpl. unfold mret, M_ret. by rewrite append_empty_r, relayed_nil.
  - change (line :: rest) with ([line] ++ rest).
    rewrite forwarded_in_app, parse_failures_in_app, deltas_app, map_app,
      concat_strings_app.
    simpl on_lines. unfold mbind, M_bind at 1.
    rewrite on_line_relayed, IH, relayed_relayed.
    by rewrite append_assoc.
Qed.

(** All [data] events of a stream. *)
Lemma on_chunks_relayed (cs : list string) (acc : string) (s : state) :
  on_chunks cs acc s =
    (Normal (acc +:+ concat_strings (map Js.ToString (forwarded cs))),
     relayed s (deltas (forwarded cs)) (parse_failures_in (lines_of cs))).
Proof.
  unfold forwarded, lines_of.
  revert acc s. induction cs as [|chunk rest IH]; intros acc s.
  - simpl. unfold mret, M_ret. by rewrite append_empty_r, relayed_nil.
  - simpl. unfold mbind, M_bind at 1. unfold on_data.
    rewrite on_lines_relayed, IH, relayed_relayed.
    rewrite forwarded_in_app, parse_failures_in_app, deltas_app, map_app,
      concat_strings_app.
    by rewrite append_assoc.
Qed.

Lemma deleteCache_frame (key : string) (s : state) :
  ∃ c l, deleteCache key s =
           (Normal tt, mkState (rateLimitCache s) c (db s) (logs s ++ l)
                               (requests s) (res s))
         ∧ match Redis.del (redis s) key with
           | inr c' => c = c' ∧ l = []
           | inl _ => c = redis s ∧ l = [(LogError, "Redis Delete Error:")]
           end.
Proof.
  unfold deleteCache, try_catch, attempt.
  destruct (Redis.del (redis s) key) as [e|c] eqn:Hdel.
  - exists (redis s), [(LogError, "Redis Delete Error:")]. by split.
  - exists c, []. split; [|done]. unfold with_redis. by rewrite app_nil_r.
Qed.

(** The [end] listener when the turn is saved. *)
Lemma on_end_saved (now : Z) (userId msg acc : string) (s : state) :
  ChatStore.fault (db s) = None →
  ∃ c l, on_end now userId msg acc s =
    (Normal tt,
     mkState (rateLimitCache s) c
       {| ChatStore.fault := None;
          ChatStore.docs := ChatStore.docs (db s) ++ [new_turn now userId msg acc] |}
       (logs s ++ l) (requests s) (res s ++ [ResWrite Done; ResEnd]))
    ∧ match Redis.del (redis s) ("chat_history:" +:+ userId +:+ ":*") with
      | inr c' => c = c' ∧ l = []
      | inl _ => c = redis s ∧ l = [(LogError, "Redis Delete Error:")]
      end.
Proof.
  intros Hok. unfold on_end, try_catch.
  unfold mbind, M_bind at 1. unfold attempt at 1.
  unfold ChatStore.save. rewrite Hok.
  unfold mbind, M_bind at 1.
  set (s1 := with_db _ s).
  destruct (deleteCache_frame ("chat_history:" +:+ userId +:+ ":*") s1)
    as (c & l & Heq & Hdel).
  rewrite Heq. exists c, l. split; [|exact Hdel].
  unfold mbind, M_bind, res_do, with_res. simpl.
  by rewrite <- app_assoc.
Qed.

(** The [end] listener when saving the turn fails. *)
Lemma on_end_failed (now : Z) (userId msg acc : string) (s : state) (e : js_error) :
  ChatStore.fault (db s) = Some e →
  on_end now userId msg acc s =
    (Normal tt,
     relayed s [ResWrite (ErrorFrame "Error saving chat"); ResEnd]
               [(LogError, "Error saving chat:")]).
Proof.
  intros Hfault. unfold on_end, try_catch.
  unfold mbind, M_bind at 1. unfold attempt at 1.
  unfold ChatStore.save. rewrite Hfault.
  unfold mbind, M_bind, logger, res_do, with_res, with_logs, relayed. simpl.
  by rewrite <- app_assoc.
Qed.

Lemma on_error_relayed (e : js_error) (s : state) :
  on_error e s =
    (Normal tt,
     relayed s [ResWrite (ErrorFrame "Stream error"); ResEnd]
               [(LogError, "Stream error:")]).
Proof.
  unfold on_error, mbind, M_bind, logger, res_do, with_res, with_logs, relayed.
  simpl. by rewrite <- app_assoc.
Qed.

Lemma count_closes_app (l1 l2 : list res_op) :
  count_closes (l1 ++ l2) = (count_closes l1 + count_closes l2)%nat.
Proof. unfold count_closes. by rewrite List.filter_app, length_app. Qed.

Lemma count_closes_deltas (vs : list Js.value) : count_closes (deltas vs) = 0%nat.
Proof. induction vs as [|v vs IH]; [done | exact IH]. Qed.

Lemma done_not_in_deltas (vs : list Js.value) : ResWrite Done ∉ deltas vs.
Proof.
  induction vs as [|v vs IH]; simpl.
  - apply not_elem_of_nil.
  - intros [Heq | Hin]%elem_of_cons; [discriminate | by apply IH].
Qed.

(** Under the provider's format the forwarded fragments spell the text
    fields of the frames that parsed: what is not forwarded is empty. *)
Lemma forwarded_spell_generated_texts (cs : list string) :
  text_typed cs = true →
  concat_strings (map Js.ToString (forwarded cs)) =
    concat_strings (generated_texts cs).
Proof.
  unfold text_typed, forwarded, forwarded_in, generated_texts, frames.
  induction (frames_in (lines_of cs)) as [|frame rest IH]; [done|].
  simpl. unfold text_field at 1.
  destruct (generated_text_of frame) as [v|]; simpl; [|exact IH].
  intros [Hv Hrest]%andb_prop. specialize (IH Hrest).
  destruct v as [| |b|n|text|items|fields]; simpl in *;
    try discriminate; try exact IH.
  destruct (decide (text = "")) as [->|Hne]; simpl.
  - exact IH.
  - f_equal. exact IH.
Qed.

(** The three ways a session of the relay runs. *)
Lemma relay_saved (cs : list string) (now : Z) (userId msg : string) (s : state) :
  ChatStore.fault (db s) = None →
  ∃ c l,
    handleStreamResponse {| chunks := cs; last_event := StreamEnd |} now userId msg s =
      (Normal tt,
       mkState (rateLimitCache s) c
         {| ChatStore.fault := None;
            ChatStore.docs := ChatStore.docs (db s)
              ++ [new_turn now userId msg
                    (concat_strings (map Js.ToString (forwarded cs)))] |}
         (logs s ++ parse_failures_in (lines_of cs) ++ l) (requests s)
         (res s ++ deltas (forwarded cs) ++ [ResWrite Done; ResEnd]))
    ∧ match Redis.del (redis s) ("chat_history:" +:+ userId +:+ ":*") with
      | inr c' => c = c' ∧ l = []
      | inl _ => c = redis s ∧ l = [(LogError, "Redis Delete Error:")]
      end.
Proof.
  intros Hok. unfold handleStreamResponse. simpl.
  unfold mbind, M_bind at 1. rewrite on_chunks_relayed, append_empty_l.
  destruct (on_end_saved now userId msg
              (concat_strings (map Js.ToString (forwarded cs)))
              (relayed s (deltas (forwarded cs)) (parse_failures_in (lines_of cs))) Hok)
    as (c & l & -> & Hdel).
  exists c, l. simpl. by rewrite <- !app_assoc.
Qed.

Lemma relay_save_failed (cs : list string) (now : Z) (userId msg : string)
    (s : state) (e : js_error) :
  ChatStore.fault (db s) = Some e →
  handleStreamResponse {| chunks := cs; last_event := StreamEnd |} now userId msg s =
    (Normal tt,
     relayed s (deltas (forwarded cs)
                  ++ [ResWrite (ErrorFrame "Error saving chat"); ResEnd])
               (parse_failures_in (lines_of cs) ++ [(LogError, "Error saving chat:")])).
Proof.
  intros Hfault. unfold handleStreamResponse. simpl.
  unfold mbind, M_bind at 1. rewrite on_chunks_relayed.
  rewrite (on_end_failed _ _ _ _ _ e) by exact Hfault.
  by rewrite relayed_relayed.
Qed.

Lemma relay_stream_error (cs : list string) (now : Z) (userId msg : string)
    (s : state) (e : js_error) :
  handleStreamResponse {| chunks := cs; last_event := StreamError e |} now userId msg s =
    (Normal tt,
     relayed s (deltas (forwarded cs)
                  ++ [ResWrite (ErrorFrame "Stream error"); ResEnd])
               (parse_failures_in (lines_of cs) ++ [(LogError, "Stream error:")])).
Proof.
  unfold handleStreamResponse. simpl.
  unfold mbind, M_bind at 1. rewrite on_chunks_relayed.
  by rewrite on_error_relayed, relayed_relayed.
Qed.

End RelayFacts.

(** C3.  When the stream ends and the turn is saved, exactly one turn is
    added to the store; its response is the concatenation, in the order
    forwarded, of the fragments written on the response, and, the provider
    keeping to its format, the concatenation of the generated-text fields
    of all frames that parsed.  Frames that do not parse add nothing and
    the frames after them still count. *)
Theorem relay_persists_concatenation `{Js.Runtime} (s : state Js.number) (now : Z)
    (userId msg : string) (cs : list string) :
  ChatStore.fault (db s) = None →
  let done := handleStreamResponse {| chunks := cs; last_event := StreamEnd |}
                now userId msg s in
  done.1 = Normal tt
  ∧ ChatStore.docs (db done.2) =
      ChatStore.docs (db s)
      ++ [new_turn now userId msg (concat_strings (map Js.ToString (forwarded cs)))]
  ∧ res done.2 = res s ++ deltas (forwarded cs) ++ [ResWrite Done; ResEnd]
  ∧ (text_typed cs = true →
     concat_strings (map Js.ToString (forwarded cs)) =
       concat_strings (generated_texts cs)).
Proof.
  intros Hok done. subst done.
  destruct (relay_saved cs now userId msg s Hok) as (c & l & -> & _).
  do 3 (split; [reflexivity|]).
  apply forwarded_spell_generated_texts.
Qed.

Lemma relay_persists_concatenation_witness :
  ChatStore.fault (db Sample.empty_state) = None
  ∧ @text_typed Sample.runtime Sample.hi_there = true
  ∧ ChatStore.docs
      (db (@handleStreamResponse Sample.runtime
             {| chunks := Sample.hi_there; last_event := StreamEnd |}
             7 "u" "Hello" Sample.empty_state).2)
    = [new_turn 7 "u" "Hello" "Hi there"]
  ∧ concat_strings (@generated_texts Sample.runtime Sample.hi_there) = "Hi there".
Proof.
  split; [reflexivity|]. split; [vm_compute; reflexivity|].
  pose proof (@relay_persists_concatenation Sample.runtime
                Sample.empty_state 7 "u" "Hello" Sample.hi_there eq_refl)
    as (_ & Hdocs & _ & Htexts).
  specialize (Htexts ltac:(vm_compute; reflexivity)).
  split.
  - vm_compute in Hdocs. vm_compute. exact Hdocs.
  - rewrite <- Htexts. vm_compute. reflexivity.
Defined.

(** C2, as the code has it.  When the stream ends but the turn cannot be
    saved, the response receives, after the fragments already forwarded,
    one error frame and is then ended; no [[DONE]] marker is written, the
    turn is lost and the failure is logged. *)
Theorem persistence_failure_reports_error `{Js.Runtime} (s : state Js.number) (now : Z)
    (userId msg : string) (cs : list string) (e : js_error) :
  ChatStore.fault (db s) = Some e →
  let done := handleStreamResponse {| chunks := cs; last_event := StreamEnd |}
                now userId msg s in
  res done.2 = res s ++ deltas (forwarded cs)
                 ++ [ResWrite (ErrorFrame "Error saving chat"); ResEnd]
  ∧ (ResWrite Done ∉
       deltas (forwarded cs) ++ [ResWrite (ErrorFrame "Error saving chat"); ResEnd])
  ∧ db done.2 = db s
  ∧ redis done.2 = redis s
  ∧ logs done.2 = logs s ++ parse_failures_in (lines_of cs)
                    ++ [(LogError, "Error saving chat:")].
Proof.
  intros Hfault done. subst done.
  rewrite (relay_save_failed cs now userId msg s e Hfault). simpl.
  split; [reflexivity|]. split; [|split; [reflexivity|]; split; [reflexivity|]].
  - intros [Hin | Hin]%elem_of_app.
    + by apply done_not_in_deltas in Hin.
    + repeat (apply elem_of_cons in Hin as [Heq | Hin]; [discriminate|]).
      by apply elem_of_nil in Hin.
  - reflexivity.
Qed.

Lemma persistence_failure_reports_error_witness :
  ChatStore.fault (db Sample.store_down) = Some Sample.lost_connection
  ∧ res (@handleStreamResponse Sample.runtime
           {| chunks := Sample.hi_there; last_event := StreamEnd |}
           7 "u" "Hello" Sample.store_down).2
    = [ResWrite (Delta (Js.JStr "Hi")); ResWrite (Delta (Js.JStr " there"));
       ResWrite (ErrorFrame "Error saving chat"); ResEnd].
Proof.
  split; [reflexivity|].
  pose proof (proj1 (@persistence_failure_reports_error Sample.runtime
                Sample.store_down 7 "u" "Hello" Sample.hi_there
                Sample.lost_connection eq_refl)) as Hw.
  vm_compute in Hw. vm_compute. exact Hw.
Defined.

(** C2, as stated, fails: with the store unreachable at the end of a
    stream that delivered one fragment, the response is ended without a
    [[DONE]] marker. *)
Lemma persistence_failure_omits_done :
  ChatStore.fault (db Sample.store_down) = Some Sample.lost_connection
  ∧ ¬ (ResWrite Done ∈
         res (@handleStreamResponse Sample.runtime
                {| chunks := [Sample.text_frame "Hi"]; last_event := StreamEnd |}
                7 "u" "Hello" Sample.store_down).2).
Proof.
  split; [reflexivity|]. vm_compute. intros Hin.
  repeat (apply elem_of_cons in Hin as [Heq | Hin]; [discriminate|]).
  by apply elem_of_nil in Hin.
Qed.

(** C9.  A session of the relay on a response that is still open ends it
    exactly once, whether the stream ends and the turn is saved, the save
    fails, or the stream reports an error; the call that ends the response
    is the last operation on it. *)
Theorem relay_closes_once `{Js.Runtime} (s : state Js.number) (response : provider_stream)
    (now : Z) (userId msg : string) :
  count_closes (res s) = 0%nat →
  let done := handleStreamResponse response now userId msg s in
  (∃ written, res done.2 = res s ++ written ++ [ResEnd]
              ∧ count_closes written = 0%nat)
  ∧ count_closes (res done.2) = 1%nat
  ∧ last (res done.2) = Some ResEnd.
Proof.
  intros Hopen done. subst done. destruct response as [cs fin].
  assert (∃ frame, res (handleStreamResponse {| chunks := cs; last_event := fin |}
                          now userId msg s).2
                   = res s ++ (deltas (forwarded cs) ++ [ResWrite frame]) ++ [ResEnd])
    as [frame Hres].
  { destruct fin as [|e].
    - destruct (ChatStore.fault (db s)) as [e|] eqn:Hfault.
      + exists (ErrorFrame "Error saving chat").
        rewrite (relay_save_failed cs now userId msg s e Hfault).
        simpl. by rewrite <- !app_assoc.
      + exists Done.
        destruct (relay_saved cs now userId msg s Hfault) as (c & l & -> & _).
        simpl. by rewrite <- !app_assoc.
    - exists (ErrorFrame "Stream error"). rewrite relay_stream_error.
      simpl. by rewrite <- !app_assoc. }
  rewrite Hres.
  assert (count_closes (deltas (forwarded cs) ++ [ResWrite frame]) = 0%nat) as Hw.
  { by rewrite count_closes_app, count_closes_deltas. }
  split; [eauto|]. split.
  - by rewrite (count_closes_app (res s)), (count_closes_app (_ ++ _)), Hopen, Hw.
  - by rewrite !app_assoc, last_snoc.
Qed.

Lemma relay_closes_once_witness :
  count_closes (res Sample.store_down) = 0%nat
  ∧ count_closes
      (res (@handleStreamResponse Sample.runtime
              {| chunks := Sample.hi_there; last_event := StreamEnd |}
              7 "u" "Hello" Sample.store_down).2) = 1%nat.
Proof.
  split; [reflexivity|].
  pose proof (proj1 (proj2 (@relay_closes_once Sample.runtime Sample.store_down
                {| chunks := Sample.hi_there; last_event := StreamEnd |}
                7 "u" "Hello" eq_refl))) as Hw.
  vm_compute in Hw. vm_compute. exact Hw.
Defined.

(** ** The submission path *)

Section SubmissionFacts.
Context `{Js.Runtime}.
Variable HUGGINGFACE_API_KEY : string.
Variable cfg : RateGovernor.config.

#[local] Abbreviation state := (state Js.number).

Lemma find_recent (st : ChatStore.t) (userId : string) :
  ChatStore.fault st = None →
  ChatStore.find st userId 0 5 = inr (recent userId (ChatStore.docs st)).
Proof. intros Hok. unfold ChatStore.find. by rewrite Hok. Qed.

(** The handler when the history cannot be read. *)
Lemma chat_handler_history_unreadable (hf : provider) (userId msg : string)
    (s : state) (e : js_error) :
  ChatStore.fault (db s) = Some e →
  chat_handler HUGGINGFACE_API_KEY hf userId msg s =
    (caught e,
     mkState (rateLimitCache s) (redis s) (db s)
       (logs s ++ [(LogInfo, "New chat request from user " +:+ userId);
                   (LogError, "Chat error:")])
       (requests s)
       (res s ++ sse_headers ++ error_report e)).
Proof.
  intros Hfault.
  unfold chat_handler, try_catch, mbind, M_bind, logger, res_do, attempt.
  cbn [with_logs with_res db logs res requests rateLimitCache redis].
  unfold ChatStore.find. rewrite Hfault.
  unfold mret, M_ret, throw, sse_headers, caught, unserialisable, error_report.
  destruct (decide (e_code e = Some "ECONNABORTED")) as [Hc|Hc].
  - cbn [with_logs with_res with_requests db logs res requests rateLimitCache redis fst snd].
    by rewrite <- !app_assoc.
  - destruct (e_response e) as [[status [|data]]|];
      cbn [with_logs with_res with_requests db logs res requests rateLimitCache redis fst snd];
      by rewrite <- !app_assoc.
Qed.

(** The handler when the primary provider answers. *)
Lemma chat_handler_primary (hf : provider) (userId msg : string) (s : state)
    (response : provider_stream) :
  ChatStore.fault (db s) = None →
  hf (primary_request HUGGINGFACE_API_KEY
        (build_prompt (recent userId (ChatStore.docs (db s))) msg))
    = Resolved response →
  chat_handler HUGGINGFACE_API_KEY hf userId msg s =
    (Normal (Some response),
     mkState (rateLimitCache s) (redis s) (db s)
       (logs s ++ [(LogInfo, "New chat request from user " +:+ userId)])
       (requests s ++ [primary_request HUGGINGFACE_API_KEY
                         (build_prompt (recent userId (ChatStore.docs (db s))) msg)])
       (res s ++ sse_headers)).
Proof.
  intros Hok Hprimary.
  unfold chat_handler, try_catch, mbind, M_bind, logger, res_do, attempt, axios_post.
  cbn [with_logs with_res db logs res requests rateLimitCache redis].
  rewrite (find_recent _ _ Hok).
  cbn [with_logs with_res with_requests db logs res requests rateLimitCache redis].
  rewrite Hprimary. unfold mret, M_ret, sse_headers.
  by rewrite <- !app_assoc.
Qed.

(** The handler when the primary provider rejects the call and the
    fallback answers. *)
Lemma chat_handler_fallback (hf : provider) (userId msg : string) (s : state)
    (e1 : js_error) (response : provider_stream) :
  ChatStore.fault (db s) = None →
  hf (primary_request HUGGINGFACE_API_KEY
        (build_prompt (recent userId (ChatStore.docs (db s))) msg))
    = Rejected e1 →
  hf (fallback_request HUGGINGFACE_API_KEY
        (build_prompt (recent userId (ChatStore.docs (db s))) msg))
    = Resolved response →
  chat_handler HUGGINGFACE_API_KEY hf userId msg s =
    (Normal (Some response),
     mkState (rateLimitCache s) (redis s) (db s)
       (logs s ++ [(LogInfo, "New chat request from user " +:+ userId);
                   (LogWarn, "Primary model failed, trying fallback:")])
       (requests s
          ++ [primary_request HUGGINGFACE_API_KEY
                (build_prompt (recent userId (ChatStore.docs (db s))) msg);
              fallback_request HUGGINGFACE_API_KEY
                (build_prompt (recent userId (ChatStore.docs (db s))) msg)])
       (res s ++ sse_headers)).
Proof.
  intros Hok Hprimary Hfallback.
  unfold chat_handler, try_catch, mbind, M_bind, logger, res_do, attempt, axios_post.
  cbn [with_logs with_res db logs res requests rateLimitCache redis].
  rewrite (find_recent _ _ Hok).
  cbn [with_logs with_res with_requests db logs res requests rateLimitCache redis].
  rewrite Hprimary.
  cbn [with_logs with_res with_requests db logs res requests rateLimitCache redis].
  rewrite Hfallback. unfold mret, M_ret, sse_headers.
  by rewrite <- !app_assoc.
Qed.

(** The handler when both providers reject the call. *)
Lemma chat_handler_both_rejected (hf : provider) (userId msg : string) (s : state)
    (e1 e2 : js_error) :
  ChatStore.fault (db s) = None →
  hf (primary_request HUGGINGFACE_API_KEY
        (build_prompt (recent userId (ChatStore.docs (db s))) msg))
    = Rejected e1 →
  hf (fallback_request HUGGINGFACE_API_KEY
        (build_prompt (recent userId (ChatStore.docs (db s))) msg))
    = Rejected e2 →
  chat_handler HUGGINGFACE_API_KEY hf userId msg s =
    (caught e2,
     mkState (rateLimitCache s) (redis s) (db s)
       (logs s ++ [(LogInfo, "New chat request from user " +:+ userId);
                   (LogWarn, "Primary model failed, trying fallback:");
                   (LogError, "Both models failed:");
                   (LogError, "Chat error:")])
       (requests s
          ++ [primary_request HUGGINGFACE_API_KEY
                (build_prompt (recent userId (ChatStore.docs (db s))) msg);
              fallback_request HUGGINGFACE_API_KEY
                (build_prompt (recent userId (ChatStore.docs (db s))) msg)])
       (res s ++ sse_headers ++ error_report e2)).
Proof.
  intros Hok Hprimary Hfallback.
  unfold chat_handler, try_catch, mbind, M_bind, logger, res_do, attempt, axios_post.
  cbn [with_logs with_res db logs res requests rateLimitCache redis].
  rewrite (find_recent _ _ Hok).
  cbn [with_logs with_res with_requests db logs res requests rateLimitCache redis].
  rewrite Hprimary.
  cbn [with_logs with_res with_requests db logs res requests rateLimitCache redis].
  rewrite Hfallback.
  unfold throw, mret, M_ret, sse_headers, caught, unserialisable, error_report.
  destruct (decide (e_code e2 = Some "ECONNABORTED")) as [Hc|Hc].
  - cbn [with_logs with_res with_requests db logs res requests rateLimitCache redis fst snd].
    by rewrite <- !app_assoc.
  - destruct (e_response e2) as [[status [|data]]|];
      cbn [with_logs with_res with_requests db logs res requests rateLimitCache redis fst snd];
      by rewrite <- !app_assoc.
Qed.

(** An error of one of the kinds is answered with the reply of its kind. *)
Lemma classified_report (e : js_error) (f : failure) :
  classify e = Some f →
  @caught provider_stream e = Normal None
  ∧ @error_report Js.number e = [SendJson (reply f).1 (reply f).2].
Proof.
  unfold classify, caught, unserialisable, error_report, reply.
  destruct (decide (e_code e = Some "ECONNABORTED")) as [Hc|Hc].
  - by intros [= <-].
  - destruct (e_response e) as [[status data]|]; [discriminate|].
    by intros [= <-].
Qed.

Lemma validate_blank (body_message : option string) :
  Js.trim (default "" body_message) = "" →
  validateChatRequest body_message =
    ("", [ {| v_path := "message"; v_msg := "Message cannot be empty" |} ]).
Proof. intros Hblank. unfold validateChatRequest. by rewrite Hblank. Qed.

Lemma validate_ok (body_message : option string) :
  Js.trim (default "" body_message) ≠ "" →
  validateChatRequest body_message = (Js.trim (default "" body_message), []).
Proof.
  intros Hne. unfold validateChatRequest.
  by destruct (decide (Js.trim (default "" body_message) = "")).
Qed.

(** A rejected message ends the chain at [handleValidationErrors]. *)
Lemma post_chat_blank (hf : provider) (now : Z) (userId : string)
    (body_message : option string) (s : state) :
  Js.trim (default "" body_message) = "" →
  post_chat HUGGINGFACE_API_KEY cfg hf now userId body_message s =
    (Normal None,
     with_res (res s ++ [SendJson 400 (ValidationBody
                 [ {| v_path := "message"; v_msg := "Message cannot be empty" |} ])]) s).
Proof.
  intros Hblank. unfold post_chat. by rewrite (validate_blank _ Hblank).
Qed.

(** A denied request ends the chain at [rateLimit]. *)
Lemma post_chat_denied (hf : provider) (now : Z) (userId : string)
    (body_message : option string) (s : state) (entry : RateGovernor.rate_entry) :
  Js.trim (default "" body_message) ≠ "" →
  RateGovernor.sweep cfg now (rateLimitCache s) !! userId = Some entry →
  RateGovernor.count entry >= RateGovernor.MAX_REQUESTS cfg →
  post_chat HUGGINGFACE_API_KEY cfg hf now userId body_message s =
    (Normal None,
     mkState (RateGovernor.sweep cfg now (rateLimitCache s)) (redis s) (db s)
       (logs s) (requests s)
       (res s ++ [SendJson 429 (RateGovernor.rate_limit_body
                                  (RateGovernor.retry_after cfg now entry))])).
Proof.
  intros Hne Hentry Hfull. unfold post_chat. rewrite (validate_ok _ Hne).
  unfold mbind, M_bind, rateLimit, RateGovernor.rateLimit.
  cbn zeta. rewrite Hentry.
  by destruct (decide (RateGovernor.count entry >= RateGovernor.MAX_REQUESTS cfg)).
Qed.

(** A request let through reaches the handler with the updated map. *)
Lemma post_chat_passes (hf : provider) (now : Z) (userId : string)
    (body_message : option string) (s : state) :
  Js.trim (default "" body_message) ≠ "" →
  passes_rate_limit cfg now userId s →
  post_chat HUGGINGFACE_API_KEY cfg hf now userId body_message s =
    chat_handler HUGGINGFACE_API_KEY hf userId (Js.trim (default "" body_message))
      (with_rateLimitCache
         (RateGovernor.rateLimit cfg now userId (rateLimitCache s)).1 s).
Proof.
  intros Hne Hpass. unfold post_chat. rewrite (validate_ok _ Hne).
  unfold passes_rate_limit in Hpass.
  unfold mbind, M_bind, rateLimit.
  destruct (RateGovernor.rateLimit cfg now userId (rateLimitCache s)) as [m o].
  simpl in Hpass. by subst o.
Qed.

End SubmissionFacts.

(** C10.  A submission whose message is absent, empty or made of
    whitespace only is answered with status 400 by the validation step;
    the rate governor does not run: the map of rate windows is the one
    before the request, and no provider is called. *)
Theorem blank_message_keeps_rate_budget `{Js.Runtime} (key : string)
    (cfg : RateGovernor.config) (hf : provider) (now : Z) (userId : string)
    (body_message : option string) (s : state Js.number) :
  Js.whitespace_only (default "" body_message) = true →
  let done := post_chat key cfg hf now userId body_message s in
  done.1 = Normal None
  ∧ res done.2 = res s ++ [SendJson 400 (ValidationBody
                    [ {| v_path := "message"; v_msg := "Message cannot be empty" |} ])]
  ∧ rateLimitCache done.2 = rateLimitCache s
  ∧ requests done.2 = requests s.
Proof.
  intros Hblank done. subst done.
  by rewrite (post_chat_blank key cfg hf now userId body_message s
                (trim_whitespace_only _ Hblank)).
Qed.

Lemma blank_message_keeps_rate_budget_witness :
  Js.whitespace_only (default "" (Some "   ")) = true
  ∧ rateLimitCache
      (@post_chat Sample.runtime "key" RateGovernor.default_config
         (λ _, Rejected Sample.lost_connection) 0 "u" (Some "   ")
         Sample.empty_state).2
    = rateLimitCache Sample.empty_state.
Proof.
  split; [reflexivity|].
  exact (proj1 (proj2 (proj2 (@blank_message_keeps_rate_budget Sample.runtime
           "key" RateGovernor.default_config
           (λ _, Rejected Sample.lost_connection) 0 "u" (Some "   ")
           Sample.empty_state eq_refl)))).
Defined.

(** C8, as the code has it.  A submission that fails before a stream is
    relayed (message rejected, rate limit reached, history unreadable, or
    both providers rejecting the call), in another way than by an error
    that carries an HTTP response, is answered with one JSON body and the
    status of its kind: 400 for a rejected message, 429 for the rate
    limit, 504 for a timeout, 500 otherwise.  The body has the members
    [error] and [message], except for a rejected message, whose body is
    [{ errors: [...] }]. *)
Theorem pre_stream_failure_reply `{Js.Runtime} (key : string)
    (cfg : RateGovernor.config) (hf : provider) (now : Z) (userId : string)
    (body_message : option string) (s : state Js.number) (f : failure) :
  pre_stream_failure key cfg hf now userId body_message s f →
  let done := post_chat key cfg hf now userId body_message s in
  done.1 = Normal None
  ∧ (∃ headers, res done.2 = res s ++ headers ++ [SendJson (reply f).1 (reply f).2]
                ∧ count_closes headers = 0%nat)
  ∧ (reply f).1 = match f with
                  | ValidationFailure => 400
                  | RateLimited _ => 429
                  | Timeout => 504
                  | Uncategorized _ => 500
                  end
  ∧ has_error_and_message (reply f).2 = match f with
                                        | ValidationFailure => false
                                        | _ => true
                                        end.
Proof.
  intros Hfail done. subst done.
  split; [|split; [|split; by destruct f]].
  - destruct Hfail as [Hblank | entry Hne Hentry Hfull | e f Hne Hpass Hfault Hkind
                      | e1 e2 f Hne Hpass Hok Hp Hf Hkind].
    + by rewrite (post_chat_blank key cfg hf now userId body_message s Hblank).
    + by rewrite (post_chat_denied key cfg hf now userId body_message s entry
                    Hne Hentry Hfull).
    + rewrite (post_chat_passes key cfg hf now userId body_message s Hne Hpass).
      rewrite (chat_handler_history_unreadable key hf userId _
                 (with_rateLimitCache _ s) e Hfault).
      exact (proj1 (classified_report e f Hkind)).
    + rewrite (post_chat_passes key cfg hf now userId body_message s Hne Hpass).
      rewrite (chat_handler_both_rejected key hf userId _
                 (with_rateLimitCache _ s) e1 e2 Hok Hp Hf).
      exact (proj1 (classified_report e2 f Hkind)).
  - destruct Hfail as [Hblank | entry Hne Hentry Hfull | e f Hne Hpass Hfault Hkind
                      | e1 e2 f Hne Hpass Hok Hp Hf Hkind].
    + exists []. split; [|done].
      by rewrite (post_chat_blank key cfg hf now userId body_message s Hblank).
    + exists []. split; [|done].
      by rewrite (post_chat_denied key cfg hf now userId body_message s entry
                    Hne Hentry Hfull).
    + exists sse_headers. split; [|done].
      rewrite (post_chat_passes key cfg hf now userId body_message s Hne Hpass).
      rewrite (chat_handler_history_unreadable key hf userId _
                 (with_rateLimitCache _ s) e Hfault).
      cbn [snd res]. by rewrite (proj2 (classified_report e f Hkind)).
    + exists sse_headers. split; [|done].
      rewrite (post_chat_passes key cfg hf now userId body_message s Hne Hpass).
      rewrite (chat_handler_both_rejected key hf userId _
                 (with_rateLimitCache _ s) e1 e2 Hok Hp Hf).
      cbn [snd res]. by rewrite (proj2 (classified_report e2 f Hkind)).
Qed.

Lemma pre_stream_failure_reply_witness :
  @pre_stream_failure Sample.runtime "key" RateGovernor.default_config
    (λ _, Rejected Sample.connection_reset) 0 "u" (Some "Hello") Sample.empty_state
    (Uncategorized "aborted")
  ∧ (@post_chat Sample.runtime "key" RateGovernor.default_config
       (λ _, Rejected Sample.connection_reset) 0 "u" (Some "Hello")
       Sample.empty_state).1 = Normal None
  ∧ (reply (Uncategorized "aborted")).1 = 500.
Proof.
  assert (@pre_stream_failure Sample.runtime "key" RateGovernor.default_config
            (λ _, Rejected Sample.connection_reset) 0 "u" (Some "Hello")
            Sample.empty_state (Uncategorized "aborted")) as Hfail.
  { apply (@providers_rejected Sample.runtime "key" RateGovernor.default_config
             (λ _, Rejected Sample.connection_reset) 0 "u" (Some "Hello")
             Sample.empty_state Sample.connection_reset Sample.connection_reset);
      try reflexivity.
    vm_compute. discriminate. }
  split; [exact Hfail|].
  pose proof (@pre_stream_failure_reply Sample.runtime "key"
                RateGovernor.default_config (λ _, Rejected Sample.connection_reset)
                0 "u" (Some "Hello") Sample.empty_state (Uncategorized "aborted")
                Hfail) as Hw.
  exact (conj (proj1 Hw) (proj1 (proj2 (proj2 Hw)))).
Defined.

(** C8, as stated, fails: a message of blanks is answered with status 400
    and a body that has neither [error] nor [message]. *)
Lemma validation_body_lacks_error_and_message :
  res (@post_chat Sample.runtime "key" RateGovernor.default_config
         (λ _, Rejected Sample.lost_connection) 0 "u" (Some "   ")
         Sample.empty_state).2
    = [SendJson 400 (ValidationBody
         [ {| v_path := "message"; v_msg := "Message cannot be empty" |} ])]
  ∧ has_error_and_message (ValidationBody
         [ {| v_path := "message"; v_msg := "Message cannot be empty" |} ]) = false.
Proof. split; vm_compute; reflexivity. Qed.

(** C5, as the code has it.  When the call to the primary provider is
    rejected, so that no response stream is obtained from it, the fallback
    provider is called next with the same prompt and the same generation
    parameters; when the fallback call is rejected too, with a timeout or
    an error that carries no HTTP response, the reply sent is the one of
    the fallback's error. *)
Theorem fallback_after_primary_failure `{Js.Runtime} (key : string)
    (hf : provider) (userId msg : string) (s : state Js.number) (e1 : js_error) :
  ChatStore.fault (db s) = None →
  hf (primary_request key (build_prompt (recent userId (ChatStore.docs (db s))) msg))
    = Rejected e1 →
  let prompt := build_prompt (recent userId (ChatStore.docs (db s))) msg in
  let done := chat_handler key hf userId msg s in
  requests done.2 = requests s ++ [primary_request key prompt; fallback_request key prompt]
  ∧ url (fallback_request key prompt) = FALLBACK_API_URL
  ∧ inputs (fallback_request key prompt) = inputs (primary_request key prompt)
  ∧ parameters (fallback_request key prompt) = parameters (primary_request key prompt)
  ∧ (∀ e2 f, hf (fallback_request key prompt) = Rejected e2 →
             classify e2 = Some f →
             done.1 = Normal None
             ∧ res done.2 = res s ++ sse_headers ++ [SendJson (reply f).1 (reply f).2])
  ∧ (∀ response, hf (fallback_request key prompt) = Resolved response →
                 done.1 = Normal (Some response)
                 ∧ res done.2 = res s ++ sse_headers).
Proof.
  intros Hok Hprimary prompt done. subst done prompt.
  destruct (hf (fallback_request key
                  (build_prompt (recent userId (ChatStore.docs (db s))) msg)))
    as [response|e2] eqn:Hfallback.
  - rewrite (chat_handler_fallback key hf userId msg s e1 response Hok Hprimary Hfallback).
    do 4 (split; [reflexivity|]). split.
    + intros e f Heq. discriminate.
    + intros r Heq. by injection Heq as <-.
  - rewrite (chat_handler_both_rejected key hf userId msg s e1 e2 Hok Hprimary Hfallback).
    do 4 (split; [reflexivity|]). split.
    + intros e f Heq Hkind. injection Heq as <-. cbn [fst snd res].
      by destruct (classified_report e2 f Hkind) as [-> ->].
    + intros r Heq. discriminate.
Qed.

Lemma fallback_after_primary_failure_witness :
  ChatStore.fault (db Sample.empty_state) = None
  ∧ Sample.fallback_unreachable
      (primary_request "key"
         (build_prompt (recent "u" (ChatStore.docs (db Sample.empty_state))) "Hello"))
    = Rejected Sample.service_unavailable
  ∧ requests (@chat_handler Sample.runtime "key" Sample.fallback_unreachable "u" "Hello"
                Sample.empty_state).2
    = requests Sample.empty_state
      ++ [primary_request "key"
            (build_prompt (recent "u" (ChatStore.docs (db Sample.empty_state))) "Hello");
          fallback_request "key"
            (build_prompt (recent "u" (ChatStore.docs (db Sample.empty_state))) "Hello")]
  ∧ res (@chat_handler Sample.runtime "key" Sample.fallback_unreachable "u" "Hello"
           Sample.empty_state).2
    = sse_headers ++ [SendJson 500 (ErrorBody "Server error" "aborted")].
Proof.
  split; [reflexivity|]. split; [reflexivity|].
  pose proof (@fallback_after_primary_failure Sample.runtime "key"
                Sample.fallback_unreachable "u" "Hello" Sample.empty_state
                Sample.service_unavailable eq_refl eq_refl)
    as (Hcalls & _ & _ & _ & Hrejected & _).
  split; [exact Hcalls|].
  destruct (Hrejected Sample.connection_reset (Uncategorized "aborted")
              eq_refl eq_refl) as [_ Hres].
  vm_compute in Hres. vm_compute. exact Hres.
Defined.

(** C5, as stated, fails: the primary provider answers with a stream that
    reports an error before any content; the fallback provider is not
    called, and the response carries an error frame. *)
Lemma broken_stream_gets_no_fallback :
  Sample.primary_breaks (primary_request "key" (instruction "Hello"))
    = Resolved {| chunks := []; last_event := StreamError Sample.connection_reset |}
  ∧ requests Sample.broken = [primary_request "key" (instruction "Hello")]
  ∧ res Sample.broken =
      sse_headers ++ [ResWrite (ErrorFrame "Stream error"); ResEnd].
Proof. vm_compute. repeat split; reflexivity. Qed.

(** C6.  The prompt is built from the context window and the new message.
    The window holds at most five turns of the user, newest first, and no
    turn of the user outside it is newer than one inside.  Each turn of the
    window gives the stored message between instruction markers followed
    by the stored response as it is; the new message, between markers,
    comes last; the turns are joined by line feeds: the prompt of a window
    is the first turn's message between the markers, a line feed, its
    response, a line feed, and the prompt of the rest of the window.  With
    no history the prompt is the new message alone, between the markers.
    Assembly is defined on every window and message; once the window is
    read, the handler calls the provider with this prompt. *)
Theorem prompt_assembly `{Js.Runtime} (key : string) (hf : provider)
    (userId msg : string) (s : state Js.number) :
  let history := recent userId (ChatStore.docs (db s)) in
  (length history ≤ 5)%nat
  ∧ StronglySorted ChatStore.newer_or_equal history
  ∧ (∀ t, t ∈ history → t ∈ ChatStore.docs (db s) ∧ user_id t = userId)
  ∧ (∀ t t', t ∈ history → t' ∈ ChatStore.docs (db s) → user_id t' = userId →
             t' ∉ history → timestamp t' ≤ timestamp t)
  ∧ (∀ window text, build_prompt window text = prompt_of window text)
  ∧ (∀ text, build_prompt [] text = "<s>[INST] " +:+ text +:+ " [/INST]")
  ∧ (∀ t older text,
       build_prompt (t :: older) text
       = ("<s>[INST] " +:+ message t +:+ " [/INST]") +:+ String Js.newline ""
         +:+ response t +:+ String Js.newline ""
         +:+ build_prompt older text)
  ∧ (ChatStore.owned_by userId (ChatStore.docs (db s)) = [] →
     build_prompt history msg = "<s>[INST] " +:+ msg +:+ " [/INST]")
  ∧ (ChatStore.fault (db s) = None →
     ∃ later, requests (chat_handler key hf userId msg s).2 =
                requests s ++ primary_request key (build_prompt history msg) :: later).
Proof.
  intros history. subst history.
  pose proof (newest_first_sorted userId (ChatStore.docs (db s))) as Hsorted.
  split; [|split; [|split; [|split; [|split; [|split; [|split; [|split]]]]]]].
  - unfold recent. rewrite length_take. lia.
  - unfold recent.
    rewrite <- (take_drop 5 (ChatStore.newest_first userId (ChatStore.docs (db s))))
      in Hsorted.
    by apply StronglySorted_app_1_l in Hsorted.
  - intros t Ht. apply elem_of_newest_first.
    exact (subseteq_take 5 _ t Ht).
  - intros t t' Ht Ht' Hown Hout.
    assert (t' ∈ ChatStore.newest_first userId (ChatStore.docs (db s))) as Hin
      by by apply elem_of_newest_first.
    rewrite <- (take_drop 5 (ChatStore.newest_first userId (ChatStore.docs (db s))))
      in Hin.
    apply elem_of_app in Hin as [Hin | Hin]; [by destruct Hout|].
    exact (page_is_newest 5 0 _ t t' Hsorted Ht Hin).
  - apply build_prompt_reads.
  - apply build_prompt_nil.
  - apply build_prompt_cons.
  - intros Hnone. unfold recent. by rewrite (newest_first_nil _ _ Hnone).
  - intros Hok.
    destruct (hf (primary_request key
                    (build_prompt (recent userId (ChatStore.docs (db s))) msg)))
      as [response|e1] eqn:Hprimary.
    + exists []. by rewrite (chat_handler_primary key hf userId msg s response Hok Hprimary).
    + exists [fallback_request key
                (build_prompt (recent userId (ChatStore.docs (db s))) msg)].
      destruct (hf (fallback_request key
                      (build_prompt (recent userId (ChatStore.docs (db s))) msg)))
        as [response|e2] eqn:Hfallback.
      * by rewrite (chat_handler_fallback key hf userId msg s e1 response
                      Hok Hprimary Hfallback).
      * by rewrite (chat_handler_both_rejected key hf userId msg s e1 e2
                      Hok Hprimary Hfallback).
Qed.

(** The prompt for a user with two earlier turns. *)
Example prompt_after_two_turns :
  build_prompt (recent "u" (ChatStore.docs (db Sample.talked_before))) "And now?"
    = instruction "Second" +:+ Sample.line_feed +:+ "Two" +:+ Sample.line_feed
      +:+ instruction "First" +:+ Sample.line_feed +:+ "One" +:+ Sample.line_feed
      +:+ instruction "And now?".
Proof. vm_compute. reflexivity. Qed.

(** ** History *)

Lemma ceil_div_bounds (a b : Z) :
  0 < b → b * (ceil_div a b - 1) < a ≤ b * ceil_div a b.
Proof.
  intros Hb. unfold ceil_div.
  pose proof (Z.div_mod (- a) b) as Hdm.
  pose proof (Z.mod_pos_bound (- a) b Hb) as Hmod.
  lia.
Qed.

Section HistoryFacts.
Context `{Js.Runtime}.

#[local] Abbreviation state := (state Js.number).

Lemma getCache_answer (now : Z) (key : string) (s : state)
    (v : option history_page) :
  Redis.get (redis s) now key = inr v →
  getCache now key s = (Normal v, s).
Proof.
  intros Hget. unfold getCache, try_catch, attempt. by rewrite Hget.
Qed.

Lemma get_connected (c : Redis.client) (now : Z) (key : string)
    (v : option history_page) :
  Redis.get c now key = inr v → Redis.connected c = true.
Proof. unfold Redis.get. by destruct (Redis.connected c). Qed.

Lemma setCache_connected (now : Z) (key : string) (v : history_page)
    (expireTime : Z) (s : state) :
  Redis.connected (redis s) = true →
  0 < expireTime →
  setCache now key v expireTime s =
    (Normal tt,
     with_redis {| Redis.connected := true;
                   Redis.keys := <[key := {| Redis.payload := json_page v;
                                             Redis.expires_at := now + expireTime * 1000 |}]>
                                   (Redis.keys (redis s)) |} s).
Proof.
  intros Hup Hpositive. unfold setCache, try_catch, attempt, Redis.set.
  rewrite Hup. by rewrite decide_False by lia.
Qed.

(** [SET] with an expiry that is not positive is rejected. *)
Lemma setCache_invalid_expire (now : Z) (key : string) (v : history_page)
    (expireTime : Z) (s : state) :
  Redis.connected (redis s) = true →
  expireTime ≤ 0 →
  setCache now key v expireTime s =
    (Normal tt, with_logs (logs s ++ [(LogError, "Redis Set Error:")]) s).
Proof.
  intros Hup Hbad. unfold setCache, try_catch, attempt, Redis.set.
  rewrite Hup. by rewrite decide_True by lia.
Qed.

(** A page whose count of pages is finite is the page its JSON text
    denotes. *)
Lemma json_page_finite (v : history_page) (pages : Z) :
  totalPages v = JsInt pages → json_page v = v.
Proof. destruct v as [l n p]. simpl. by intros ->. Qed.

(** The page the store returns for positive [page] and [limit]. *)
Lemma find_page (st : ChatStore.t) (userId : string) (page limit : Z) :
  ChatStore.fault st = None → 1 ≤ page → 1 ≤ limit →
  ChatStore.find st userId ((page - 1) * limit) (limit * 1) =
    inr (take (Z.to_nat limit)
           (drop (Z.to_nat ((page - 1) * limit))
              (ChatStore.newest_first userId (ChatStore.docs st)))).
Proof.
  intros Hok Hpage Hlimit. unfold ChatStore.find, ChatStore.page_of.
  rewrite Hok.
  destruct (decide ((page - 1) * limit < 0)) as [Hneg|_]; [nia|].
  destruct (decide (limit * 1 = 0)) as [Hzero|_]; [lia|].
  do 3 f_equal. lia.
Qed.

(** The route on a miss. *)
Lemma get_history_miss (now : Z) (userId : string) (q_page q_limit : option Z)
    (s : state) :
  ChatStore.fault (db s) = None →
  1 ≤ default 1 q_page →
  1 ≤ default 20 q_limit →
  Redis.get (redis s) now (cacheKey userId (default 1 q_page) (default 20 q_limit))
    = inr None →
  get_history now userId q_page q_limit s =
    let result :=
      {| chats := take (Z.to_nat (default 20 q_limit))
                    (drop (Z.to_nat ((default 1 q_page - 1) * default 20 q_limit))
                       (ChatStore.newest_first userId (ChatStore.docs (db s))));
         totalPages := JsInt (ceil_div
                         (Z.of_nat (length (ChatStore.owned_by userId
                                              (ChatStore.docs (db s)))))
                         (default 20 q_limit));
         currentPage := default 1 q_page |} in
    (Normal tt,
     mkState (rateLimitCache s)
       {| Redis.connected := true;
          Redis.keys :=
            <[cacheKey userId (default 1 q_page) (default 20 q_limit) :=
                {| Redis.payload := result; Redis.expires_at := now + 300 * 1000 |}]>
              (Redis.keys (redis s)) |}
       (db s) (logs s) (requests s)
       (res s ++ [SendJson 200 (HistoryBody result)])).
Proof.
  intros Hok Hpage Hlimit Hmiss.
  unfold get_history, try_catch.
  cbn zeta. unfold mbind, M_bind at 1.
  rewrite (getCache_answer _ _ _ _ Hmiss).
  unfold mbind, M_bind at 1. unfold attempt at 1.
  rewrite (find_page _ _ _ _ Hok Hpage Hlimit).
  unfold mbind, M_bind at 1. unfold attempt at 1.
  unfold ChatStore.countDocuments. rewrite Hok.
  unfold js_ceil_quot.
  destruct (decide (default 20 q_limit = 0)) as [Hzero|_]; [lia|].
  unfold mbind, M_bind at 1.
  rewrite setCache_connected by (exact (get_connected _ _ _ _ Hmiss) || lia).
  reflexivity.
Qed.

(** The route on a hit. *)
Lemma get_history_hit (now : Z) (userId : string) (q_page q_limit : option Z)
    (s : state) (cached : history_page) :
  Redis.get (redis s) now (cacheKey userId (default 1 q_page) (default 20 q_limit))
    = inr (Some cached) →
  get_history now userId q_page q_limit s =
    (Normal tt, with_res (res s ++ [SendJson 200 (HistoryBody cached)]) s).
Proof.
  intros Hhit. unfold get_history, try_catch.
  cbn zeta. unfold mbind, M_bind at 1.
  by rewrite (getCache_answer _ _ _ _ Hhit).
Qed.

(** No page key is the key that the [end] listener deletes. *)
Lemma cacheKey_not_pattern (userId : string) (page limit : Z) :
  cacheKey userId page limit ≠ "chat_history:" +:+ userId +:+ ":*".
Proof.
  unfold cacheKey. intros Heq.
  apply (inj (String.app "chat_history:")) in Heq.
  apply (inj (String.app userId)) in Heq.
  change (":*") with (":" +:+ "*") in Heq.
  apply (inj (String.app ":")) in Heq.
  destruct (pretty page) as [|c rest]; [discriminate|].
  rewrite append_cons in Heq. injection Heq as _ Hrest.
  destruct rest; discriminate.
Qed.

(** What is served from the cache before the end of a stream whose turn
    is saved is served after it as well. *)
Lemma cached_page_outlives_submission (cs : list string) (now later : Z)
    (userId msg : string) (page limit : Z) (s : state) (cached : history_page) :
  ChatStore.fault (db s) = None →
  Redis.get (redis s) later (cacheKey userId page limit) = inr (Some cached) →
  Redis.get
    (redis (handleStreamResponse {| chunks := cs; last_event := StreamEnd |}
              now userId msg s).2)
    later (cacheKey userId page limit) = inr (Some cached).
Proof.
  intros Hok Hcached.
  destruct (relay_saved cs now userId msg s Hok) as (c & l & -> & Hdel).
  cbn [snd redis].
  unfold Redis.del in Hdel. unfold Redis.get in *.
  destruct (Redis.connected (redis s)); [|discriminate].
  destruct Hdel as [-> _]. cbn [Redis.connected Redis.keys].
  rewrite lookup_delete_ne; [exact Hcached|].
  intros Heq. by apply (cacheKey_not_pattern userId page limit).
Qed.

(** ...so that a read after the submission answers with the page cached
    before it. *)
Lemma read_after_submission_is_cached (cs : list string) (now later : Z)
    (userId msg : string) (q_page q_limit : option Z) (s : state)
    (cached : history_page) :
  ChatStore.fault (db s) = None →
  Redis.get (redis s) later
    (cacheKey userId (default 1 q_page) (default 20 q_limit)) = inr (Some cached) →
  res (get_history later userId q_page q_limit
         (next_request
            (handleStreamResponse {| chunks := cs; last_event := StreamEnd |}
               now userId msg s).2)).2
    = [SendJson 200 (HistoryBody cached)].
Proof.
  intros Hok Hcached.
  rewrite (get_history_hit later userId q_page q_limit _ cached); [done|].
  exact (cached_page_outlives_submission cs now later userId msg _ _ s cached
           Hok Hcached).
Qed.

End HistoryFacts.

(** C7.  On a miss of the cache, with positive page and limit, the history
    route answers 200 with the turns of the user, newest first, after
    skipping [(page - 1) * limit] of them and keeping at most [limit];
    [totalPages] is the ceiling of the number of turns of the user divided
    by [limit]; the answer is stored under the key of (user, page, limit)
    and read back from there for 300 seconds, no longer.  An absent page is
    1, an absent limit 20. *)
Theorem history_miss_reads_store `{Js.Runtime} (now : Z) (userId : string)
    (q_page q_limit : option Z) (s : state Js.number) :
  let page := default 1 q_page in
  let limit := default 20 q_limit in
  let key := cacheKey userId page limit in
  let turns := ChatStore.newest_first userId (ChatStore.docs (db s)) in
  let total := Z.of_nat (length (ChatStore.owned_by userId (ChatStore.docs (db s)))) in
  ChatStore.fault (db s) = None →
  1 ≤ page →
  1 ≤ limit →
  Redis.get (redis s) now key = inr None →
  let done := get_history now userId q_page q_limit s in
  ∃ pages,
    let result := {| chats := take (Z.to_nat limit)
                                (drop (Z.to_nat ((page - 1) * limit)) turns);
                     totalPages := JsInt pages;
                     currentPage := page |} in
    done.1 = Normal tt
    ∧ res done.2 = res s ++ [SendJson 200 (HistoryBody result)]
    ∧ limit * (pages - 1) < total ≤ limit * pages
    ∧ Z.of_nat (length (chats result)) ≤ limit
    ∧ StronglySorted ChatStore.newer_or_equal (chats result)
    ∧ (∀ t, t ∈ chats result → t ∈ ChatStore.docs (db s) ∧ user_id t = userId)
    ∧ (∀ later, Redis.get (redis done.2) later key =
                  inr (if decide (later < now + 300 * 1000) then Some result else None))
    ∧ (q_page = None → page = 1)
    ∧ (q_limit = None → limit = 20).
Proof.
  intros page limit key turns total Hok Hpage Hlimit Hmiss done.
  subst done page limit key turns total.
  rewrite (get_history_miss now userId q_page q_limit s Hok Hpage Hlimit Hmiss).
  cbn zeta.
  exists (ceil_div (Z.of_nat (length (ChatStore.owned_by userId (ChatStore.docs (db s)))))
                   (default 20 q_limit)).
  pose proof (newest_first_sorted userId (ChatStore.docs (db s))) as Hsorted.
  split; [reflexivity|]. split; [reflexivity|].
  split; [apply ceil_div_bounds; lia|].
  split; [cbn [chats]; rewrite length_take; lia|].
  split; [|split; [|split; [|split]]].
  - cbn [chats].
    rewrite <- (take_drop (Z.to_nat ((default 1 q_page - 1) * default 20 q_limit))
                  (ChatStore.newest_first userId (ChatStore.docs (db s)))) in Hsorted.
    apply StronglySorted_app_1_r in Hsorted.
    rewrite <- (take_drop (Z.to_nat (default 20 q_limit)) (drop _ _)) in Hsorted.
    by apply StronglySorted_app_1_l in Hsorted.
  - cbn [chats]. intros t Ht. apply elem_of_newest_first.
    apply (subseteq_drop (Z.to_nat ((default 1 q_page - 1) * default 20 q_limit))).
    exact (subseteq_take _ _ t Ht).
  - intros later. unfold Redis.get. cbn [redis Redis.connected Redis.keys snd].
    by rewrite lookup_insert_eq.
  - by intros ->.
  - by intros ->.
Qed.

Lemma history_miss_reads_store_witness :
  ChatStore.fault (db Sample.talked_before) = None
  ∧ 1 ≤ default 1 (Some 2)
  ∧ 1 ≤ default 20 (Some 1)
  ∧ Redis.get (redis Sample.talked_before) 100 (cacheKey "u" 2 1) = inr None
  ∧ ∃ pages,
      res (@get_history Sample.runtime 100 "u" (Some 2) (Some 1) Sample.talked_before).2
        = [SendJson 200 (HistoryBody {| chats := [mkChatTurn "u" "First" "One" 10];
                                        totalPages := JsInt pages;
                                        currentPage := 2 |})]
      ∧ 1 * (pages - 1) < 2 ≤ 1 * pages.
Proof.
  split; [reflexivity|]. split; [vm_compute; discriminate|].
  split; [vm_compute; discriminate|]. split; [reflexivity|].
  destruct (@history_miss_reads_store Sample.runtime 100 "u" (Some 2) (Some 1)
              Sample.talked_before eq_refl
              ltac:(vm_compute; discriminate) ltac:(vm_compute; discriminate)
              eq_refl)
    as (pages & _ & Hres & Hpages & _).
  exists pages. split; [exact Hres | exact Hpages].
Defined.

(** C1.  A page read before a submission is served again after it: the
    user reads an empty history, the submission is answered and saved,
    and one second later the history route still answers with the empty
    page, although the store holds the new turn. *)
Theorem history_stale_after_submission :
  ChatStore.docs (db Sample.submitted) = [mkChatTurn "u" "Hello" "Hi there" 2000]
  ∧ res Sample.submitted =
      sse_headers ++ [ResWrite (Delta (Js.JStr "Hi"));
                      ResWrite (Delta (Js.JStr " there"));
                      ResWrite Done; ResEnd]
  ∧ res Sample.second_read =
      [SendJson 200 (HistoryBody {| chats := []; totalPages := JsInt 0;
                                    currentPage := 1 |})].
Proof. vm_compute. repeat split; reflexivity. Qed.

(** ** Rate governor *)

Section RateFacts.
Variable cfg : RateGovernor.config.

Lemma sweep_lookup (now : Z) (m : gmap string RateGovernor.rate_entry)
    (k : string) (e : RateGovernor.rate_entry) :
  RateGovernor.sweep cfg now m !! k = Some e ↔
  m !! k = Some e ∧ ¬ RateGovernor.stale cfg now e.
Proof. unfold RateGovernor.sweep. by rewrite map_lookup_filter_Some. Qed.

Lemma sweep_lookup_None (now : Z) (m : gmap string RateGovernor.rate_entry)
    (k : string) :
  RateGovernor.sweep cfg now m !! k = None ↔
  ∀ e, m !! k = Some e → RateGovernor.stale cfg now e.
Proof.
  unfold RateGovernor.sweep. rewrite map_lookup_filter_None. split.
  - intros [Hnone | Hall] e He; [congruence|].
    specialize (Hall e He). simpl in Hall.
    destruct (decide (RateGovernor.stale cfg now e)); tauto.
  - intros Hall. right. intros e He Hlive. exact (Hlive (Hall e He)).
Qed.

(** An entry older than the window counts as absent: the request opens
    a new window. *)
Lemma stale_entry_is_absent (now : Z) (userId : string)
    (m : gmap string RateGovernor.rate_entry) :
  (∀ e, m !! userId = Some e → RateGovernor.stale cfg now e) →
  RateGovernor.rateLimit cfg now userId m =
    (<[userId := {| RateGovernor.count := 1; RateGovernor.window_start := now |}]>
       (RateGovernor.sweep cfg now m),
     RateGovernor.Next).
Proof.
  intros Hstale. unfold RateGovernor.rateLimit. cbn zeta.
  by rewrite (proj2 (sweep_lookup_None now m userId) Hstale).
Qed.

(** No counter exceeds the maximum. *)
Lemma rateLimit_bounded (now : Z) (userId : string)
    (m : gmap string RateGovernor.rate_entry) :
  1 ≤ RateGovernor.MAX_REQUESTS cfg →
  (∀ k e, m !! k = Some e → RateGovernor.count e ≤ RateGovernor.MAX_REQUESTS cfg) →
  ∀ k e, (RateGovernor.rateLimit cfg now userId m).1 !! k = Some e →
         RateGovernor.count e ≤ RateGovernor.MAX_REQUESTS cfg.
Proof.
  intros Hmax Hinv k e. unfold RateGovernor.rateLimit. cbn zeta.
  assert (∀ k e, RateGovernor.sweep cfg now m !! k = Some e →
                 RateGovernor.count e ≤ RateGovernor.MAX_REQUESTS cfg) as Hswept.
  { intros k' e' [He' _]%sweep_lookup. by eapply Hinv. }
  destruct (RateGovernor.sweep cfg now m !! userId) as [userLimit|] eqn:Hu.
  - destruct (decide (RateGovernor.count userLimit >= RateGovernor.MAX_REQUESTS cfg))
      as [Hfull|Hroom]; simpl.
    + apply Hswept.
    + destruct (decide (userId = k)) as [->|Hne].
      * rewrite lookup_insert_eq. intros [= <-]. simpl. lia.
      * rewrite lookup_insert_ne by done. apply Hswept.
  - simpl. destruct (decide (userId = k)) as [->|Hne].
    + rewrite lookup_insert_eq. intros [= <-]. simpl. lia.
    + rewrite lookup_insert_ne by done. apply Hswept.
Qed.

(** Inside a window that holds [c] requests, further requests pass as
    long as the maximum is not exceeded. *)
Lemma run_inside_window (userId : string) (start : Z) (times : list Z) :
  ∀ (m : gmap string RateGovernor.rate_entry) (c : Z),
  m !! userId = Some {| RateGovernor.count := c; RateGovernor.window_start := start |} →
  Forall (λ now, now - start ≤ RateGovernor.RATE_LIMIT_WINDOW cfg) times →
  c + Z.of_nat (length times) ≤ RateGovernor.MAX_REQUESTS cfg →
  ∃ m', RateGovernor.run cfg userId times m =
          (m', replicate (length times) RateGovernor.Next)
        ∧ m' !! userId =
            Some {| RateGovernor.count := c + Z.of_nat (length times);
                    RateGovernor.window_start := start |}.
Proof.
  induction times as [|now rest IH]; intros m c Hentry Hin Hroom.
  - exists m. simpl. split; [done|]. rewrite Hentry. do 2 f_equal. lia.
  - apply Forall_cons in Hin as [Hnow Hrest]. simpl in Hroom.
    assert (RateGovernor.sweep cfg now m !! userId =
              Some {| RateGovernor.count := c; RateGovernor.window_start := start |})
      as Hswept.
    { apply sweep_lookup. split; [done|]. unfold RateGovernor.stale. simpl. lia. }
    simpl. unfold RateGovernor.rateLimit. cbn zeta. rewrite Hswept.
    destruct (decide (RateGovernor.count
                        {| RateGovernor.count := c; RateGovernor.window_start := start |}
                      >= RateGovernor.MAX_REQUESTS cfg)) as [Hfull|_];
      [simpl in Hfull; lia|].
    simpl.
    destruct (IH (<[userId := {| RateGovernor.count := c + 1;
                                 RateGovernor.window_start := start |}]>
                    (RateGovernor.sweep cfg now m)) (c + 1))
      as (m' & -> & Hm'); [apply lookup_insert_eq | done | lia |].
    exists m'. split; [done|]. rewrite Hm'. do 2 f_equal. lia.
Qed.

(** Once the window holds the maximum, a request inside it is denied
    with status 429, and the wait announced is the rest of the window in
    seconds, rounded up; the map is only swept. *)
Lemma full_window_denies (now : Z) (userId : string) (start c : Z)
    (m : gmap string RateGovernor.rate_entry) :
  m !! userId = Some {| RateGovernor.count := c; RateGovernor.window_start := start |} →
  now - start ≤ RateGovernor.RATE_LIMIT_WINDOW cfg →
  RateGovernor.MAX_REQUESTS cfg ≤ c →
  RateGovernor.rateLimit cfg now userId m =
    (RateGovernor.sweep cfg now m,
     RateGovernor.Respond 429
       (RateGovernor.rate_limit_body
          (ceil_div (start + RateGovernor.RATE_LIMIT_WINDOW cfg - now) 1000))).
Proof.
  intros Hentry Hnow Hfull.
  assert (RateGovernor.sweep cfg now m !! userId =
            Some {| RateGovernor.count := c; RateGovernor.window_start := start |})
    as Hswept.
  { apply sweep_lookup. split; [done|]. unfold RateGovernor.stale. simpl. lia. }
  unfold RateGovernor.rateLimit. cbn zeta. rewrite Hswept.
  destruct (decide (RateGovernor.count
                      {| RateGovernor.count := c; RateGovernor.window_start := start |}
                    >= RateGovernor.MAX_REQUESTS cfg)) as [_|Hroom];
    [|simpl in Hroom; lia].
  unfold RateGovernor.retry_after. simpl. do 4 f_equal. lia.
Qed.

(** The wait announced is positive exactly when the request comes
    strictly before the end of the window. *)
Lemma retry_after_positive (now : Z) (e : RateGovernor.rate_entry) :
  0 < RateGovernor.retry_after cfg now e ↔
  now - RateGovernor.window_start e < RateGovernor.RATE_LIMIT_WINDOW cfg.
Proof.
  unfold RateGovernor.retry_after.
  pose proof (ceil_div_bounds
                (RateGovernor.RATE_LIMIT_WINDOW cfg
                 - (now - RateGovernor.window_start e)) 1000 eq_refl).
  lia.
Qed.

(** At the very end of a full window the request is still denied, and
    the wait announced is zero. *)
Lemma window_end_wait_is_zero (userId : string) (start c : Z)
    (m : gmap string RateGovernor.rate_entry) :
  m !! userId = Some {| RateGovernor.count := c; RateGovernor.window_start := start |} →
  RateGovernor.MAX_REQUESTS cfg ≤ c →
  RateGovernor.rateLimit cfg (start + RateGovernor.RATE_LIMIT_WINDOW cfg) userId m =
    (RateGovernor.sweep cfg (start + RateGovernor.RATE_LIMIT_WINDOW cfg) m,
     RateGovernor.Respond 429 (RateGovernor.rate_limit_body 0)).
Proof.
  intros Hentry Hfull.
  rewrite (full_window_denies _ userId start c m Hentry) by lia.
  by rewrite Z.sub_diag.
Qed.

End RateFacts.

(** C4.  With the default settings, a user sends 100 requests and then,
    exactly 900000 milliseconds after the first, one more.  The first 100
    pass; the last one is denied with status 429, and the wait it
    announces is 0 seconds. *)
Theorem retry_after_zero_at_window_end :
  RateGovernor.default_config
    = {| RateGovernor.RATE_LIMIT_WINDOW := 900000; RateGovernor.MAX_REQUESTS := 100 |}
  ∧ (RateGovernor.run RateGovernor.default_config "u"
       (replicate 100 0 ++ [900000]) ∅).2
    = replicate 100 RateGovernor.Next
      ++ [RateGovernor.Respond 429
            (ErrorBody "Rate limit exceeded"
                       "Please wait 0 seconds before trying again")]
  ∧ RateGovernor.retry_after RateGovernor.default_config 900000
      {| RateGovernor.count := 100; RateGovernor.window_start := 0 |} = 0.
Proof. vm_compute. repeat split; reflexivity. Qed.

(** * Further properties of the code *)

(** ** utils/cache.js *)

(** X1.  With Redis connected and a positive expiry, what [setCache]
    stores under a key is what [getCache] returns for that key until the
    expiry time has passed, and nothing afterwards.  What comes back is the
    page that the JSON text of the stored page denotes: the page itself
    when its count of pages is finite, the page with [null] for the count
    when that was [Infinity] or [NaN].  Reading changes nothing, and the
    other keys read as before.  With an expiry that is not positive the
    command is rejected: [setCache] logs the error and the cache is as it
    was. *)
Theorem cache_round_trip `{Js.Runtime} (now later : Z) (key : string)
    (v : history_page) (expireTime : Z) (s : state Js.number) :
  Redis.connected (redis s) = true →
  let stored := (setCache now key v expireTime s).2 in
  (setCache now key v expireTime s).1 = Normal tt
  ∧ (0 < expireTime →
     getCache later key stored =
       (Normal (if decide (later < now + expireTime * 1000)
                then Some (json_page v) else None),
        stored)
     ∧ (∀ other, other ≠ key →
          (getCache later other stored).1 = (getCache later other s).1))
  ∧ chats (json_page v) = chats v
  ∧ currentPage (json_page v) = currentPage v
  ∧ totalPages (json_page v) = match totalPages v with
                               | JsInt pages => JsInt pages
                               | JsInfinity | JsNaN | JsNull => JsNull
                               end
  ∧ (expireTime ≤ 0 →
     stored = with_logs (logs s ++ [(LogError, "Redis Set Error:")]) s).
Proof.
  intros Hup stored. subst stored.
  split; [|split; [|split; [|split; [|split]]]]; try reflexivity.
  - destruct (decide (0 < expireTime)) as [Hpositive|Hbad].
    + by rewrite (setCache_connected now key v expireTime s Hup Hpositive).
    + by rewrite (setCache_invalid_expire now key v expireTime s Hup) by lia.
  - intros Hpositive.
    rewrite (setCache_connected now key v expireTime s Hup Hpositive). cbn [fst snd].
    split.
    + apply getCache_answer. unfold Redis.get.
      cbn [redis with_redis Redis.connected Redis.keys].
      by rewrite lookup_insert_eq.
    + intros other Hother.
      rewrite (getCache_answer later other _
                 (Redis.keys (redis s) !! other ≫= Redis.live later)).
      * rewrite (getCache_answer later other s
                   (Redis.keys (redis s) !! other ≫= Redis.live later)); [done|].
        unfold Redis.get. by rewrite Hup.
      * unfold Redis.get. cbn [redis with_redis Redis.connected Redis.keys].
        by rewrite lookup_insert_ne.
  - intros Hbad. by rewrite (setCache_invalid_expire now key v expireTime s Hup Hbad).
Qed.

Lemma cache_round_trip_witness :
  Redis.connected (redis Sample.empty_state) = true
  ∧ (@getCache Sample.runtime 299999 "k"
       (@setCache Sample.runtime 0 "k" (mkPage [] JsInfinity 1) 300
          Sample.empty_state).2).1
    = Normal (Some (mkPage [] JsNull 1)).
Proof.
  split; [reflexivity|].
  pose proof (proj1 (proj1 (proj2 (@cache_round_trip Sample.runtime 0 299999 "k"
                (mkPage [] JsInfinity 1) 300 Sample.empty_state eq_refl))
                ltac:(reflexivity))) as Hw.
  cbv zeta in Hw. rewrite Hw. reflexivity.
Defined.

(** X2.  With Redis connected, [deleteCache] removes the key it is given:
    [getCache] then answers [null] for it at any time, and every other key
    reads as before.  The key is taken literally. *)
Theorem cache_delete_then_get `{Js.Runtime} (later : Z) (key : string)
    (s : state Js.number) :
  Redis.connected (redis s) = true →
  let deleted := (deleteCache key s).2 in
  (deleteCache key s).1 = Normal tt
  ∧ (getCache later key deleted).1 = Normal None
  ∧ (∀ other, other ≠ key →
       (getCache later other deleted).1 = (getCache later other s).1)
  ∧ db deleted = db s ∧ logs deleted = logs s.
Proof.
  intros Hup deleted. subst deleted.
  unfold deleteCache, try_catch, attempt, Redis.del. rewrite Hup. cbn [fst snd].
  split; [reflexivity|]. split; [|split; [|done]].
  - rewrite (getCache_answer later key _ None); [done|].
    unfold Redis.get. cbn [redis with_redis Redis.connected Redis.keys].
    by rewrite lookup_delete_eq.
  - intros other Hother.
    rewrite (getCache_answer later other _ (Redis.keys (redis s) !! other ≫= Redis.live later)).
    + rewrite (getCache_answer later other s
                 (Redis.keys (redis s) !! other ≫= Redis.live later)); [done|].
      unfold Redis.get. by rewrite Hup.
    + unfold Redis.get. cbn [redis with_redis Redis.connected Redis.keys].
      by rewrite lookup_delete_ne.
Qed.

Lemma cache_delete_then_get_witness :
  Redis.connected (redis Sample.first_read) = true
  ∧ (@getCache Sample.runtime 10 (cacheKey "u" 1 20)
       (@deleteCache Sample.runtime (cacheKey "u" 1 20) Sample.first_read).2).1
    = Normal None.
Proof.
  split; [reflexivity|].
  exact (proj1 (proj2 (@cache_delete_then_get Sample.runtime 10 (cacheKey "u" 1 20)
           Sample.first_read eq_refl))).
Defined.

(** X3.  While Redis is not connected none of the three cache functions
    throws: [getCache] answers [null], [setCache] and [deleteCache] return,
    and each leaves the state as it was but for one error in the log. *)
Theorem cache_outage_is_silent `{Js.Runtime} (now : Z) (key : string)
    (v : history_page) (expireTime : Z) (s : state Js.number) :
  Redis.connected (redis s) = false →
  getCache now key s =
    (Normal None, with_logs (logs s ++ [(LogError, "Redis Get Error:")]) s)
  ∧ setCache now key v expireTime s =
      (Normal tt, with_logs (logs s ++ [(LogError, "Redis Set Error:")]) s)
  ∧ deleteCache key s =
      (Normal tt, with_logs (logs s ++ [(LogError, "Redis Delete Error:")]) s).
Proof.
  intros Hdown.
  unfold getCache, setCache, deleteCache, try_catch, attempt,
    Redis.get, Redis.set, Redis.del.
  by rewrite Hdown.
Qed.

Lemma cache_outage_is_silent_witness :
  Redis.connected (redis Sample.cache_down) = false
  ∧ (@getCache Sample.runtime 0 "k" Sample.cache_down).1 = Normal None.
Proof.
  split; [reflexivity|].
  pose proof (proj1 (@cache_outage_is_silent Sample.runtime 0 "k"
                (mkPage [] (JsInt 0) 1) 300 Sample.cache_down eq_refl)) as Hw.
  by rewrite Hw.
Defined.

(** ** routes/chatRoutes.js: the history route *)

(** X4.  When the cache holds a live page under the key of the request,
    the route answers 200 with that page and does nothing else: the store
    is not read, so the answer is the same when the store is unreachable,
    and cache and log stay as they were. *)
Theorem history_hit_never_reads_store `{Js.Runtime} (now : Z) (userId : string)
    (q_page q_limit : option Z) (s : state Js.number) (cached : history_page) :
  Redis.get (redis s) now (cacheKey userId (default 1 q_page) (default 20 q_limit))
    = inr (Some cached) →
  let done := get_history now userId q_page q_limit s in
  done.1 = Normal tt
  ∧ res done.2 = res s ++ [SendJson 200 (HistoryBody cached)]
  ∧ db done.2 = db s
  ∧ redis done.2 = redis s
  ∧ logs done.2 = logs s.
Proof.
  intros Hhit done. subst done.
  by rewrite (get_history_hit now userId q_page q_limit s cached Hhit).
Qed.

Lemma history_hit_never_reads_store_witness :
  Redis.get (redis Sample.cached_then_down) 3000 (cacheKey "u" 1 20)
    = inr (Some (mkPage [] (JsInt 0) 1))
  ∧ ChatStore.fault (db Sample.cached_then_down) = Some Sample.lost_connection
  ∧ res (@get_history Sample.runtime 3000 "u" None None Sample.cached_then_down).2
    = [SendJson 200 (HistoryBody (mkPage [] (JsInt 0) 1))].
Proof.
  split; [vm_compute; reflexivity|]. split; [reflexivity|].
  exact (proj1 (proj2 (@history_hit_never_reads_store Sample.runtime 3000 "u"
           None None Sample.cached_then_down (mkPage [] (JsInt 0) 1)
           ltac:(vm_compute; reflexivity)))).
Defined.

(** What [getCache] does when it has no page to return. *)
Lemma getCache_nothing `{Js.Runtime} (now : Z) (key : string) (s : state Js.number) :
  (∀ cached, Redis.get (redis s) now key ≠ inr (Some cached)) →
  ∃ l, getCache now key s =
         (Normal None,
          mkState (rateLimitCache s) (redis s) (db s) (logs s ++ l)
                  (requests s) (res s))
       ∧ (l = [] ∨ l = [(LogError, "Redis Get Error:")]).
Proof.
  intros Hmiss. unfold getCache, try_catch, attempt.
  destruct (Redis.get (redis s) now key) as [e|[cached|]] eqn:Hget.
  - exists [(LogError, "Redis Get Error:")]. split; [done | by right].
  - by destruct (Hmiss cached).
  - exists []. split; [|by left]. destruct s. simpl. by rewrite app_nil_r.
Qed.

Lemma get_history_store_failure `{Js.Runtime} (now : Z) (userId : string)
    (q_page q_limit : option Z) (s : state Js.number) (e : js_error) :
  (∀ cached, Redis.get (redis s) now
               (cacheKey userId (default 1 q_page) (default 20 q_limit))
             ≠ inr (Some cached)) →
  ChatStore.fault (db s) = Some e →
  ∃ l, get_history now userId q_page q_limit s =
         (Normal tt,
          mkState (rateLimitCache s) (redis s) (db s)
            ((logs s ++ l) ++ [(LogError, "Error fetching chat history:")])
            (requests s)
            (res s ++ [SendJson 500 (ErrorBody "Internal server error" (e_message e))])).
Proof.
  intros Hmiss Hfault.
  unfold get_history, try_catch. cbn zeta. unfold mbind, M_bind at 1.
  destruct (getCache_nothing now _ s Hmiss) as (l & -> & _).
  exists l.
  unfold mbind, M_bind at 1. unfold attempt at 1.
  cbn [db]. unfold ChatStore.find. by rewrite Hfault.
Qed.

(** X5.  When the cache has no page for the request and the store cannot
    be read, the route answers 500 with the body [{ error: "Internal
    server error", message }] carrying the message of the store's error;
    nothing is written to the cache and the failure is logged. *)
Theorem history_store_failure_is_500 `{Js.Runtime} (now : Z) (userId : string)
    (q_page q_limit : option Z) (s : state Js.number) (e : js_error) :
  (∀ cached, Redis.get (redis s) now
               (cacheKey userId (default 1 q_page) (default 20 q_limit))
             ≠ inr (Some cached)) →
  ChatStore.fault (db s) = Some e →
  let done := get_history now userId q_page q_limit s in
  done.1 = Normal tt
  ∧ res done.2 =
      res s ++ [SendJson 500 (ErrorBody "Internal server error" (e_message e))]
  ∧ redis done.2 = redis s
  ∧ db done.2 = db s
  ∧ last (logs done.2) = Some (LogError, "Error fetching chat history:").
Proof.
  intros Hmiss Hfault done. subst done.
  destruct (get_history_store_failure now userId q_page q_limit s e Hmiss Hfault)
    as (l & ->).
  cbn [fst snd res logs redis db].
  do 4 (split; [reflexivity|]). by rewrite last_snoc.
Qed.

Lemma history_store_failure_is_500_witness :
  (∀ cached, Redis.get (redis Sample.store_down) 0 (cacheKey "u" 1 20)
             ≠ inr (Some cached))
  ∧ ChatStore.fault (db Sample.store_down) = Some Sample.lost_connection
  ∧ res (@get_history Sample.runtime 0 "u" None None Sample.store_down).2
    = [SendJson 500 (ErrorBody "Internal server error" "connection lost")].
Proof.
  assert (∀ cached, Redis.get (redis Sample.store_down) 0 (cacheKey "u" 1 20)
                    ≠ inr (Some cached)) as Hmiss.
  { intros cached. vm_compute. discriminate. }
  split; [exact Hmiss|]. split; [reflexivity|].
  exact (proj1 (proj2 (@history_store_failure_is_500 Sample.runtime 0 "u"
           None None Sample.store_down Sample.lost_connection Hmiss eq_refl))).
Defined.

Lemma cache_outage_is_silent_facts `{Js.Runtime} (now : Z) (key : string)
    (s : state Js.number) :
  Redis.connected (redis s) = false →
  getCache now key s =
    (Normal None, with_logs (logs s ++ [(LogError, "Redis Get Error:")]) s)
  ∧ (∀ v expireTime, setCache now key v expireTime s =
      (Normal tt, with_logs (logs s ++ [(LogError, "Redis Set Error:")]) s)).
Proof.
  intros Hdown. unfold getCache, setCache, try_catch, attempt, Redis.get, Redis.set.
  by rewrite Hdown.
Qed.

Lemma get_history_without_cache `{Js.Runtime} (now : Z) (userId : string)
    (q_page q_limit : option Z) (s : state Js.number) :
  Redis.connected (redis s) = false →
  ChatStore.fault (db s) = None →
  1 ≤ default 1 q_page →
  1 ≤ default 20 q_limit →
  get_history now userId q_page q_limit s =
    (Normal tt,
     mkState (rateLimitCache s) (redis s) (db s)
       ((logs s ++ [(LogError, "Redis Get Error:")])
          ++ [(LogError, "Redis Set Error:")])
       (requests s)
       (res s ++ [SendJson 200 (HistoryBody
          {| chats := take (Z.to_nat (default 20 q_limit))
                        (drop (Z.to_nat ((default 1 q_page - 1) * default 20 q_limit))
                           (ChatStore.newest_first userId (ChatStore.docs (db s))));
             totalPages := JsInt (ceil_div
                             (Z.of_nat (length (ChatStore.owned_by userId
                                                  (ChatStore.docs (db s)))))
                             (default 20 q_limit));
             currentPage := default 1 q_page |})])).
Proof.
  intros Hdown Hok Hpage Hlimit.
  unfold get_history, try_catch. cbn zeta. unfold mbind, M_bind at 1.
  rewrite (proj1 (cache_outage_is_silent_facts now _ s Hdown)).
  unfold mbind, M_bind at 1. unfold attempt at 1. cbn [db with_logs].
  rewrite (find_page _ _ _ _ Hok Hpage Hlimit).
  unfold mbind, M_bind at 1. unfold attempt at 1. cbn [db with_logs].
  unfold ChatStore.countDocuments. rewrite Hok.
  unfold js_ceil_quot.
  destruct (decide (default 20 q_limit = 0)) as [Hzero|_]; [lia|].
  unfold mbind, M_bind at 1.
  rewrite (proj2 (cache_outage_is_silent_facts now _ (with_logs _ s) Hdown)).
  reflexivity.
Qed.

(** X6.  With Redis not connected the route still answers: for positive
    page and limit and a readable store it sends 200 with the page read
    from the store; the cache is left alone and the two failed cache calls
    are logged. *)
Theorem history_works_without_cache `{Js.Runtime} (now : Z) (userId : string)
    (q_page q_limit : option Z) (s : state Js.number) :
  Redis.connected (redis s) = false →
  ChatStore.fault (db s) = None →
  1 ≤ default 1 q_page →
  1 ≤ default 20 q_limit →
  let done := get_history now userId q_page q_limit s in
  done.1 = Normal tt
  ∧ (∃ pages,
       res done.2 = res s ++ [SendJson 200 (HistoryBody
         {| chats := take (Z.to_nat (default 20 q_limit))
                       (drop (Z.to_nat ((default 1 q_page - 1) * default 20 q_limit))
                          (ChatStore.newest_first userId (ChatStore.docs (db s))));
            totalPages := JsInt pages;
            currentPage := default 1 q_page |})])
  ∧ redis done.2 = redis s
  ∧ logs done.2 = logs s ++ [(LogError, "Redis Get Error:");
                             (LogError, "Redis Set Error:")].
Proof.
  intros Hdown Hok Hpage Hlimit done. subst done.
  rewrite (get_history_without_cache now userId q_page q_limit s Hdown Hok Hpage Hlimit).
  cbn [fst snd res logs redis].
  split; [reflexivity|]. split; [eauto|]. split; [reflexivity|].
  by rewrite <- app_assoc.
Qed.

Lemma history_works_without_cache_witness :
  Redis.connected (redis Sample.cache_down) = false
  ∧ ChatStore.fault (db Sample.cache_down) = None
  ∧ 1 ≤ default 1 None
  ∧ 1 ≤ default 20 None
  ∧ (@get_history Sample.runtime 0 "u" None None Sample.cache_down).1 = Normal tt.
Proof.
  split; [reflexivity|]. split; [reflexivity|].
  split; [vm_compute; discriminate|]. split; [vm_compute; discriminate|].
  exact (proj1 (@history_works_without_cache Sample.runtime 0 "u" None None
           Sample.cache_down eq_refl eq_refl
           ltac:(vm_compute; discriminate) ltac:(vm_compute; discriminate))).
Defined.

(** X7.  A page produced on a miss is what the same request receives again
    during the next 300 seconds, whatever has happened to the store in the
    meantime, as long as the cache is the one the miss left behind. *)
Theorem history_repeat_read_is_cached `{Js.Runtime} (now later : Z)
    (userId : string) (q_page q_limit : option Z) (s s2 : state Js.number) :
  ChatStore.fault (db s) = None →
  1 ≤ default 1 q_page →
  1 ≤ default 20 q_limit →
  Redis.get (redis s) now (cacheKey userId (default 1 q_page) (default 20 q_limit))
    = inr None →
  later < now + 300 * 1000 →
  redis s2 = redis (get_history now userId q_page q_limit s).2 →
  ∃ body,
    res (get_history now userId q_page q_limit s).2 = res s ++ [SendJson 200 body]
    ∧ res (get_history later userId q_page q_limit s2).2 = res s2 ++ [SendJson 200 body]
    ∧ db (get_history later userId q_page q_limit s2).2 = db s2.
Proof.
  intros Hok Hpage Hlimit Hmiss Hlater.
  rewrite (get_history_miss now userId q_page q_limit s Hok Hpage Hlimit Hmiss).
  cbn zeta. cbn [snd redis res]. intros Hredis.
  eexists. split; [reflexivity|].
  erewrite (get_history_hit later userId q_page q_limit s2);
    [split; reflexivity|].
  rewrite Hredis. unfold Redis.get. cbn [Redis.connected Redis.keys].
  rewrite lookup_insert_eq. cbn. unfold Redis.live. cbn [Redis.expires_at Redis.payload].
  by destruct (decide (later < now + 300 * 1000)).
Qed.

Lemma history_repeat_read_is_cached_witness :
  ChatStore.fault (db Sample.empty_state) = None
  ∧ 1 ≤ default 1 None
  ∧ 1 ≤ default 20 None
  ∧ Redis.get (redis Sample.empty_state) 0 (cacheKey "u" 1 20) = inr None
  ∧ 3000 < 0 + 300 * 1000
  ∧ redis (next_request Sample.submitted)
    = redis (@get_history Sample.runtime 0 "u" None None Sample.empty_state).2
  ∧ ∃ body,
      res (@get_history Sample.runtime 0 "u" None None Sample.empty_state).2
        = res Sample.empty_state ++ [SendJson 200 body]
      ∧ res (@get_history Sample.runtime 3000 "u" None None
               (next_request Sample.submitted)).2
        = res (next_request Sample.submitted) ++ [SendJson 200 body]
      ∧ db (@get_history Sample.runtime 3000 "u" None None
              (next_request Sample.submitted)).2
        = db (next_request Sample.submitted).
Proof.
  split; [reflexivity|]. split; [vm_compute; discriminate|].
  split; [vm_compute; discriminate|]. split; [reflexivity|].
  split; [reflexivity|].
  assert (redis (next_request Sample.submitted)
          = redis (@get_history Sample.runtime 0 "u" None None Sample.empty_state).2)
    as Hredis by (vm_compute; reflexivity).
  split; [exact Hredis|].
  exact (@history_repeat_read_is_cached Sample.runtime 0 3000 "u" None None
           Sample.empty_state (next_request Sample.submitted) eq_refl
           ltac:(vm_compute; discriminate) ltac:(vm_compute; discriminate)
           eq_refl eq_refl Hredis).
Defined.

(** *** The cache key *)

Lemma occurs_app (c : ascii) (a b : string) :
  occurs c (a +:+ b) = occurs c a || occurs c b.
Proof.
  induction a as [|x a IH]; [done|].
  rewrite append_cons. simpl. by destruct (decide (x = c)).
Qed.

Lemma pretty_N_char_no_colon (x : N) : pretty_N_char x ≠ ":"%char.
Proof. unfold pretty_N_char. by repeat (discriminate || case_match). Qed.

Lemma pretty_N_go_no_colon (x : N) :
  ∀ s, occurs ":" s = false → occurs ":" (pretty_N_go x s) = false.
Proof.
  induction (N.lt_wf_0 x) as [x _ IH]; intros s Hs.
  assert (x = 0 ∨ 0 < x)%N as [->|Hpos] by lia.
  - by rewrite pretty_N_go_0.
  - rewrite pretty_N_go_step by done.
    apply IH; [by apply N.div_lt|].
    simpl. destruct (decide (pretty_N_char (x `mod` 10) = ":"%char)) as [Heq|_]; [|done].
    by destruct (pretty_N_char_no_colon (x `mod` 10)).
Qed.

Lemma pretty_N_no_colon (x : N) : occurs ":" (pretty x) = false.
Proof.
  unfold pretty, pretty_N. destruct (decide (x = 0)%N); [done|].
  by apply pretty_N_go_no_colon.
Qed.

Lemma pretty_Z_no_colon (z : Z) : occurs ":" (pretty z) = false.
Proof.
  unfold pretty, pretty_Z. destruct z as [|p|p]; [done| |].
  - apply pretty_N_no_colon.
  - rewrite occurs_app. simpl. apply pretty_N_no_colon.
Qed.

(** A string is cut at its last colon in one way only. *)
Lemma cut_at_last_colon (a b x y : string) :
  occurs ":" x = false → occurs ":" y = false →
  a +:+ String ":" x = b +:+ String ":" y → a = b ∧ x = y.
Proof.
  intros Hx Hy. revert b. induction a as [|c a IH]; intros [|d b] Heq.
  - rewrite !append_empty_l in Heq. by simplify_eq.
  - rewrite append_empty_l, append_cons in Heq. simplify_eq.
    rewrite occurs_app in Hx. simpl in Hx.
    by rewrite orb_true_r in Hx.
  - rewrite append_empty_l, append_cons in Heq. simplify_eq.
    rewrite occurs_app in Hy. simpl in Hy.
    by rewrite orb_true_r in Hy.
  - rewrite !append_cons in Heq. simplify_eq.
    destruct (IH b) as [-> ->]; done.
Qed.

(** X8.  Two requests share a cache key only when user, page and limit all
    agree: no identifier, whatever characters it holds, makes the key of
    one user's page coincide with the key of another's. *)
Theorem cacheKey_injective (userId userId' : string) (page page' limit limit' : Z) :
  cacheKey userId page limit = cacheKey userId' page' limit'
  ↔ userId = userId' ∧ page = page' ∧ limit = limit'.
Proof.
  split; [|by intros (-> & -> & ->)].
  unfold cacheKey. intros Heq.
  apply (inj (String.app "chat_history:")) in Heq.
  change (userId +:+ String ":" (pretty page +:+ String ":" (pretty limit))
          = userId' +:+ String ":" (pretty page' +:+ String ":" (pretty limit')))
    in Heq.
  rewrite <- !append_cons, <- !append_assoc in Heq.
  apply cut_at_last_colon in Heq as [Heq Hlimit]; try apply pretty_Z_no_colon.
  apply cut_at_last_colon in Heq as [-> Hpage]; try apply pretty_Z_no_colon.
  by apply (inj pretty) in Hlimit as ->; apply (inj pretty) in Hpage as ->.
Qed.

(** ** routes/chatRoutes.js: the rate governor *)

Lemma rateLimit_other (cfg : RateGovernor.config) (now : Z) (u v : string)
    (m : gmap string RateGovernor.rate_entry) :
  u ≠ v →
  (RateGovernor.rateLimit cfg now u m).1 !! v = RateGovernor.sweep cfg now m !! v.
Proof.
  intros Hne. unfold RateGovernor.rateLimit. cbn zeta.
  destruct (RateGovernor.sweep cfg now m !! u) as [userLimit|].
  - destruct (decide (RateGovernor.count userLimit >= RateGovernor.MAX_REQUESTS cfg));
      cbn [fst]; [done | by rewrite lookup_insert_ne].
  - cbn [fst]. by rewrite lookup_insert_ne.
Qed.

(** X9.  The governor keeps the users apart.  A request of one user
    leaves the live entry of every other user as it is, and whether it
    passes depends on the requester's own entry only. *)
Theorem rate_limit_is_per_user (cfg : RateGovernor.config) (now : Z)
    (u v : string) (m : gmap string RateGovernor.rate_entry) :
  u ≠ v →
  (∀ e, m !! v = Some e → ¬ RateGovernor.stale cfg now e →
        (RateGovernor.rateLimit cfg now u m).1 !! v = Some e)
  ∧ (m !! v = None → (RateGovernor.rateLimit cfg now u m).1 !! v = None)
  ∧ (∀ m', m' !! u = m !! u →
           (RateGovernor.rateLimit cfg now u m').2
           = (RateGovernor.rateLimit cfg now u m).2).
Proof.
  intros Hne. split; [|split].
  - intros e He Hlive. rewrite rateLimit_other by done. by apply sweep_lookup.
  - intros Hnone. rewrite rateLimit_other by done.
    apply sweep_lookup_None. intros e He. congruence.
  - intros m' Hsame. unfold RateGovernor.rateLimit. cbn zeta.
    assert (RateGovernor.sweep cfg now m' !! u = RateGovernor.sweep cfg now m !! u)
      as ->.
    { unfold RateGovernor.sweep. rewrite !map_lookup_filter, Hsame. done. }
    destruct (RateGovernor.sweep cfg now m !! u) as [userLimit|]; [|done].
    by destruct (decide _).
Qed.

Lemma rate_limit_is_per_user_witness :
  "u" ≠ "v"
  ∧ (RateGovernor.rateLimit RateGovernor.default_config 5 "u"
       {["v" := RateGovernor.mkEntry 100 0]}).1 !! "v"
    = Some (RateGovernor.mkEntry 100 0).
Proof.
  split; [discriminate|].
  apply (proj1 (rate_limit_is_per_user RateGovernor.default_config 5 "u" "v"
                  {["v" := RateGovernor.mkEntry 100 0]} ltac:(discriminate))).
  - reflexivity.
  - vm_compute. discriminate.
Defined.

(** X10.  A denied request costs nothing and buys nothing: the entry of
    the user keeps its count and its window start, so requests made while
    the window is full do not prolong it, and the first request after the
    window has passed opens a new window with count 1. *)
Theorem denied_request_keeps_window (cfg : RateGovernor.config) (now later : Z)
    (userId : string) (start c : Z) (m : gmap string RateGovernor.rate_entry) :
  m !! userId = Some {| RateGovernor.count := c; RateGovernor.window_start := start |} →
  now - start ≤ RateGovernor.RATE_LIMIT_WINDOW cfg →
  RateGovernor.MAX_REQUESTS cfg ≤ c →
  later - start > RateGovernor.RATE_LIMIT_WINDOW cfg →
  let denied := RateGovernor.rateLimit cfg now userId m in
  (∃ body, denied.2 = RateGovernor.Respond 429 body)
  ∧ denied.1 !! userId =
      Some {| RateGovernor.count := c; RateGovernor.window_start := start |}
  ∧ (RateGovernor.rateLimit cfg later userId denied.1).2 = RateGovernor.Next
  ∧ (RateGovernor.rateLimit cfg later userId denied.1).1 !! userId =
      Some {| RateGovernor.count := 1; RateGovernor.window_start := later |}.
Proof.
  intros Hentry Hnow Hfull Hlater denied. subst denied.
  rewrite (full_window_denies cfg now userId start c m Hentry Hnow Hfull).
  cbn [fst snd].
  assert (RateGovernor.sweep cfg now m !! userId =
            Some {| RateGovernor.count := c; RateGovernor.window_start := start |})
    as Hswept.
  { apply sweep_lookup. split; [done|]. unfold RateGovernor.stale. simpl. lia. }
  split; [eauto|]. split; [exact Hswept|].
  rewrite stale_entry_is_absent.
  - cbn [fst snd]. split; [done|]. apply lookup_insert_eq.
  - intros e He. rewrite Hswept in He. injection He as <-.
    unfold RateGovernor.stale. simpl. lia.
Qed.

Lemma denied_request_keeps_window_witness :
  ({["u" := RateGovernor.mkEntry 100 0]} : gmap string RateGovernor.rate_entry) !! "u"
    = Some (RateGovernor.mkEntry 100 0)
  ∧ 500 - 0 ≤ RateGovernor.RATE_LIMIT_WINDOW RateGovernor.default_config
  ∧ RateGovernor.MAX_REQUESTS RateGovernor.default_config ≤ 100
  ∧ 900001 - 0 > RateGovernor.RATE_LIMIT_WINDOW RateGovernor.default_config
  ∧ (RateGovernor.rateLimit RateGovernor.default_config 900001 "u"
       (RateGovernor.rateLimit RateGovernor.default_config 500 "u"
          {["u" := RateGovernor.mkEntry 100 0]}).1).2 = RateGovernor.Next.
Proof.
  split; [reflexivity|]. split; [vm_compute; discriminate|].
  split; [vm_compute; discriminate|]. split; [reflexivity|].
  exact (proj1 (proj2 (proj2 (denied_request_keeps_window
           RateGovernor.default_config 500 900001 "u" 0 100
           {["u" := RateGovernor.mkEntry 100 0]} eq_refl
           ltac:(vm_compute; discriminate) ltac:(vm_compute; discriminate)
           eq_refl)))).
Defined.

Lemma served_snoc (cfg : RateGovernor.config) (reqs : list (Z * string))
    (now : Z) (userId : string) :
  ∀ m, served cfg (reqs ++ [(now, userId)]) m
       = (RateGovernor.rateLimit cfg now userId (served cfg reqs m)).1.
Proof.
  induction reqs as [|[t u] rest IH]; intros m; [done|].
  simpl. apply IH.
Qed.

(** X11.  Whatever users send requests in whatever order, starting from
    the empty map, every entry of the map counts at least one request and
    at most the maximum, never more than its user has sent, and its window
    starts at the time of one of that user's requests. *)
Theorem counters_stay_in_range (cfg : RateGovernor.config)
    (reqs : list (Z * string)) (k : string) (e : RateGovernor.rate_entry) :
  1 ≤ RateGovernor.MAX_REQUESTS cfg →
  served cfg reqs ∅ !! k = Some e →
  1 ≤ RateGovernor.count e ≤ RateGovernor.MAX_REQUESTS cfg
  ∧ RateGovernor.count e ≤ Z.of_nat (length (filter (λ r, r.2 = k) reqs))
  ∧ (RateGovernor.window_start e, k) ∈ reqs.
Proof.
  intros Hmax. revert k e.
  induction reqs as [|[now u] reqs IH] using rev_ind; intros k e He.
  - simpl in He. by rewrite lookup_empty in He.
  - rewrite served_snoc in He.
    rewrite filter_app, length_app, elem_of_app.
    destruct (decide (u = k)) as [->|Hne].
    + rewrite filter_cons_True, filter_nil by done.
      unfold RateGovernor.rateLimit in He. cbn zeta in He.
      destruct (RateGovernor.sweep cfg now (served cfg reqs ∅) !! k)
        as [userLimit|] eqn:Hu.
      * apply sweep_lookup in Hu as [Hu _].
        destruct (IH _ _ Hu) as (Hrange & Hsent & Hstart).
        destruct (decide (RateGovernor.count userLimit
                          >= RateGovernor.MAX_REQUESTS cfg)) as [Hfull|Hroom];
          cbn [fst] in He.
        -- apply sweep_lookup in He as [He _].
           assert (e = userLimit) as -> by congruence.
           split; [done|]. split; [simpl; lia | by left].
        -- rewrite lookup_insert_eq in He. injection He as <-. simpl.
           split; [lia|]. split; [lia | by left].
      * cbn [fst] in He. rewrite lookup_insert_eq in He. injection He as <-.
        simpl. split; [lia|]. split; [lia|]. right. by apply list_elem_of_singleton.
    + rewrite rateLimit_other in He by done.
      apply sweep_lookup in He as [He _].
      destruct (IH _ _ He) as (Hrange & Hsent & Hstart).
      split; [done|]. split; [lia | by left].
Qed.

Lemma counters_stay_in_range_witness :
  1 ≤ RateGovernor.MAX_REQUESTS RateGovernor.default_config
  ∧ served RateGovernor.default_config [(0, "u"); (1, "v"); (2, "u")] ∅ !! "u"
    = Some (RateGovernor.mkEntry 2 0)
  ∧ 1 ≤ 2 ≤ RateGovernor.MAX_REQUESTS RateGovernor.default_config.
Proof.
  split; [vm_compute; discriminate|]. split; [reflexivity|].
  exact (proj1 (counters_stay_in_range RateGovernor.default_config
                  [(0, "u"); (1, "v"); (2, "u")] "u" (RateGovernor.mkEntry 2 0)
                  ltac:(vm_compute; discriminate) eq_refl)).
Defined.

(** X12.  Every request empties the map of closed windows: after a
    request at time [now], by whatever user, each entry left in the map,
    the requester's own included, has a window that started no more than
    the window length before [now]. *)
Theorem request_leaves_open_windows_only (cfg : RateGovernor.config)
    (reqs : list (Z * string)) (now : Z) (userId : string)
    (m : gmap string RateGovernor.rate_entry)
    (k : string) (e : RateGovernor.rate_entry) :
  0 ≤ RateGovernor.RATE_LIMIT_WINDOW cfg →
  served cfg (reqs ++ [(now, userId)]) m !! k = Some e →
  now - RateGovernor.window_start e ≤ RateGovernor.RATE_LIMIT_WINDOW cfg.
Proof.
  intros Hwindow He. rewrite served_snoc in He.
  assert (∀ k' e', RateGovernor.sweep cfg now (served cfg reqs m) !! k' = Some e' →
                   now - RateGovernor.window_start e'
                   ≤ RateGovernor.RATE_LIMIT_WINDOW cfg) as Hswept.
  { intros k' e' [_ Hlive]%sweep_lookup. unfold RateGovernor.stale in Hlive. lia. }
  destruct (decide (userId = k)) as [->|Hne].
  - unfold RateGovernor.rateLimit in He. cbn zeta in He.
    destruct (RateGovernor.sweep cfg now (served cfg reqs m) !! k)
      as [userLimit|] eqn:Hu.
    + destruct (decide (RateGovernor.count userLimit
                        >= RateGovernor.MAX_REQUESTS cfg)); cbn [fst] in He.
      * by apply (Hswept k).
      * rewrite lookup_insert_eq in He. injection He as <-. simpl.
        by apply (Hswept k).
    + cbn [fst] in He. rewrite lookup_insert_eq in He. injection He as <-.
      simpl. lia.
  - rewrite rateLimit_other in He by done. by apply (Hswept k).
Qed.

Lemma request_leaves_open_windows_only_witness :
  0 ≤ RateGovernor.RATE_LIMIT_WINDOW RateGovernor.default_config
  ∧ served RateGovernor.default_config ([(0, "u")] ++ [(900000, "v")]) ∅ !! "u"
    = Some (RateGovernor.mkEntry 1 0)
  ∧ 900000 - 0 ≤ RateGovernor.RATE_LIMIT_WINDOW RateGovernor.default_config.
Proof.
  split; [vm_compute; discriminate|]. split; [reflexivity|].
  exact (request_leaves_open_windows_only RateGovernor.default_config
           [(0, "u")] 900000 "v" ∅ "u" (RateGovernor.mkEntry 1 0)
           ltac:(vm_compute; discriminate) eq_refl).
Defined.

Lemma run_app (cfg : RateGovernor.config) (userId : string) (xs ys : list Z) :
  ∀ m, RateGovernor.run cfg userId (xs ++ ys) m
       = ((RateGovernor.run cfg userId ys (RateGovernor.run cfg userId xs m).1).1,
          (RateGovernor.run cfg userId xs m).2
          ++ (RateGovernor.run cfg userId ys (RateGovernor.run cfg userId xs m).1).2).
Proof.
  induction xs as [|now rest IH]; intros m.
  - simpl. by destruct (RateGovernor.run cfg userId ys m).
  - simpl. destruct (RateGovernor.rateLimit cfg now userId m) as [m1 o].
    rewrite IH. destruct (RateGovernor.run cfg userId rest m1) as [m2 os].
    simpl. by destruct (RateGovernor.run cfg userId ys m2).
Qed.

Lemma fresh_window_budget (cfg : RateGovernor.config) (userId : string)
    (start later : Z) (n : nat) (m : gmap string RateGovernor.rate_entry) :
  (∀ e, m !! userId = Some e → RateGovernor.stale cfg start e) →
  later - start ≤ RateGovernor.RATE_LIMIT_WINDOW cfg →
  1 + Z.of_nat n ≤ RateGovernor.MAX_REQUESTS cfg →
  ∃ m', RateGovernor.run cfg userId (start :: replicate n later) m
        = (m', replicate (S n) RateGovernor.Next)
        ∧ m' !! userId
          = Some {| RateGovernor.count := 1 + Z.of_nat n;
                    RateGovernor.window_start := start |}.
Proof.
  intros Hfresh Hlater Hroom. simpl.
  rewrite (stale_entry_is_absent cfg start userId m Hfresh).
  destruct (run_inside_window cfg userId start (replicate n later)
              (<[userId := {| RateGovernor.count := 1;
                              RateGovernor.window_start := start |}]>
                 (RateGovernor.sweep cfg start m)) 1)
    as (m' & Hrun & Hentry).
  - apply lookup_insert_eq.
  - by apply Forall_replicate.
  - rewrite length_replicate. lia.
  - rewrite length_replicate in Hrun, Hentry. rewrite Hrun. eauto.
Qed.

(** X13.  The window is fixed, not sliding.  A user whose window opens at
    [t0] and who spends the rest of the budget in the window's last
    millisecond gets a whole new budget one millisecond later: twice the
    maximum is admitted, all but the first within two milliseconds. *)
Theorem window_is_fixed (cfg : RateGovernor.config) (userId : string) (t0 : Z)
    (m : gmap string RateGovernor.rate_entry) :
  1 ≤ RateGovernor.MAX_REQUESTS cfg →
  0 ≤ RateGovernor.RATE_LIMIT_WINDOW cfg →
  (∀ e, m !! userId = Some e → RateGovernor.stale cfg t0 e) →
  let n := Z.to_nat (RateGovernor.MAX_REQUESTS cfg - 1) in
  let last := t0 + RateGovernor.RATE_LIMIT_WINDOW cfg in
  let times := (t0 :: replicate n last) ++ (last + 1 :: replicate n (last + 1)) in
  Z.of_nat (length times) = 2 * RateGovernor.MAX_REQUESTS cfg
  ∧ (RateGovernor.run cfg userId times m).2
    = replicate (length times) RateGovernor.Next.
Proof.
  intros Hmax Hwindow Hfresh n last times. subst times.
  split. { rewrite length_app. simpl. rewrite !length_replicate. lia. }
  rewrite run_app.
  destruct (fresh_window_budget cfg userId t0 last n m Hfresh)
    as (m1 & Hrun1 & Hentry1); [lia.. |].
  rewrite Hrun1. cbn [fst snd].
  destruct (fresh_window_budget cfg userId (last + 1) (last + 1) n m1)
    as (m2 & Hrun2 & _); [| lia.. |].
  { intros e He. rewrite Hentry1 in He. injection He as <-.
    unfold RateGovernor.stale. simpl. lia. }
  rewrite Hrun2. cbn [fst snd].
  rewrite length_app. cbn [length]. rewrite !length_replicate.
  by rewrite <- replicate_add.
Qed.

Lemma window_is_fixed_witness :
  1 ≤ RateGovernor.MAX_REQUESTS RateGovernor.default_config
  ∧ 0 ≤ RateGovernor.RATE_LIMIT_WINDOW RateGovernor.default_config
  ∧ (RateGovernor.run RateGovernor.default_config "u"
       ((0 :: replicate 99 900000) ++ (900001 :: replicate 99 900001)) ∅).2
    = replicate 200 RateGovernor.Next.
Proof.
  split; [vm_compute; discriminate|]. split; [vm_compute; discriminate|].
  exact (proj2 (window_is_fixed RateGovernor.default_config "u" 0 ∅
                  ltac:(vm_compute; discriminate) ltac:(vm_compute; discriminate)
                  ltac:(intros e He; by rewrite lookup_empty in He))).
Defined.

(** ** routes/chatRoutes.js: the validation chain *)

Lemma ltrim_empty (s : string) : Js.ltrim s = "" → Js.whitespace_only s = true.
Proof.
  induction s as [|c s IH]; simpl; [done|].
  destruct (Js.is_space c); [exact IH | discriminate].
Qed.

Lemma ltrim_head (s : string) (c : ascii) (r : string) :
  Js.ltrim s = String c r → Js.is_space c = false.
Proof.
  induction s as [|a s IH]; simpl; [discriminate|].
  destruct (Js.is_space a) eqn:Ha; [exact IH|].
  intros Heq. injection Heq as <- _. exact Ha.
Qed.

Lemma ltrim_split (s : string) :
  ∃ lead, s = lead +:+ Js.ltrim s ∧ Js.whitespace_only lead = true.
Proof.
  induction s as [|c s (lead & Hs & Hlead)]; [by exists ""|].
  simpl. destruct (Js.is_space c) eqn:Hc.
  - exists (String c lead). rewrite append_cons, <- Hs. simpl. by rewrite Hc.
  - by exists "".
Qed.

Lemma ltrim_fixed (s : string) :
  (∀ c r, s = String c r → Js.is_space c = false) → Js.ltrim s = s.
Proof.
  destruct s as [|c r]; [done|]. intros Hhead. simpl.
  by rewrite (Hhead c r eq_refl).
Qed.

Lemma rtrim_head (s : string) (c : ascii) (r : string) :
  Js.rtrim s = String c r → ∃ r', s = String c r'.
Proof.
  destruct s as [|a s]; simpl; [discriminate|].
  destruct (Js.rtrim s); [destruct (Js.is_space a); [discriminate|]|];
    intros Heq; injection Heq as <- _; eauto.
Qed.

Lemma rtrim_split (s : string) :
  ∃ trail, s = Js.rtrim s +:+ trail ∧ Js.whitespace_only trail = true.
Proof.
  induction s as [|c s (trail & Hs & Htrail)]; [by exists ""|].
  simpl. destruct (Js.rtrim s) as [|k ks] eqn:Hkept.
  - rewrite append_empty_l in Hs. subst trail.
    destruct (Js.is_space c) eqn:Hc.
    + exists (String c s). rewrite append_empty_l. simpl. by rewrite Hc, Htrail.
    + exists s. by rewrite append_cons, append_empty_l.
  - exists trail. by rewrite append_cons, <- Hs.
Qed.

Lemma snoc_not_empty (r : string) (c : ascii) : r +:+ String c "" ≠ "".
Proof. by destruct r. Qed.

Lemma rtrim_last (s : string) :
  ∀ (r : string) (c : ascii),
  Js.rtrim s = r +:+ String c "" → Js.is_space c = false.
Proof.
  induction s as [|a s IH]; intros r c; simpl.
  - intros Heq. by destruct (snoc_not_empty r c).
  - destruct (Js.rtrim s) as [|k ks] eqn:Hkept.
    + destruct (Js.is_space a) eqn:Ha.
      * intros Heq. by destruct (snoc_not_empty r c).
      * destruct r as [|x r]; rewrite ?append_cons, ?append_empty_l; intros Heq.
        -- by injection Heq as <-.
        -- injection Heq as _ Heq. by destruct (snoc_not_empty r c).
    + destruct r as [|x r]; rewrite ?append_cons, ?append_empty_l; intros Heq.
      * discriminate.
      * injection Heq as _ Heq. by apply (IH r c).
Qed.

Lemma rtrim_fixed (s : string) : Js.rtrim (Js.rtrim s) = Js.rtrim s.
Proof.
  induction s as [|c s IH]; simpl; [done|].
  destruct (Js.rtrim s) as [|k ks] eqn:Hkept.
  - destruct (Js.is_space c) eqn:Hc; [done|]. simpl. by rewrite Hc.
  - change (Js.rtrim (String c (String k ks)))
      with (match Js.rtrim (String k ks) with
            | "" => if Js.is_space c then "" else String c ""
            | kept => String c kept
            end).
    by rewrite IH.
Qed.

Lemma trim_empty (s : string) : Js.trim s = "" ↔ Js.whitespace_only s = true.
Proof.
  split; [|apply trim_whitespace_only].
  unfold Js.trim. intros Hempty.
  destruct (Js.ltrim s) as [|c r] eqn:Hltrim; [by apply ltrim_empty|].
  pose proof (ltrim_head s c r Hltrim) as Hc.
  simpl in Hempty. rewrite Hc in Hempty.
  by destruct (Js.rtrim r).
Qed.

(** X14.  The validation chain turns away exactly the blank messages: it
    records an error if and only if the field is absent or made of
    white space only, and then the error is the one about the empty
    message. *)
Theorem validation_rejects_blank_only (body_message : option string) :
  ((validateChatRequest body_message).2 = []
   ↔ Js.whitespace_only (default "" body_message) = false)
  ∧ ((validateChatRequest body_message).2
       = [ {| v_path := "message"; v_msg := "Message cannot be empty" |} ]
     ↔ Js.whitespace_only (default "" body_message) = true).
Proof.
  unfold validateChatRequest. cbn [snd].
  pose proof (trim_empty (default "" body_message)) as Hblank.
  destruct (decide (Js.trim (default "" body_message) = "")) as [Hempty|Hfull].
  - apply Hblank in Hempty. rewrite Hempty. by split; split.
  - destruct (Js.whitespace_only (default "" body_message)).
    + by destruct Hfull; apply Hblank.
    + by split; split.
Qed.

(** X15.  The message the handler receives is the field without the
    white space around it: white space, the message, white space make up
    the field; the message neither starts nor ends with white space; and
    validating it once more gives it back. *)
Theorem validated_message_is_trimmed (body_message : option string) :
  let msg := (validateChatRequest body_message).1 in
  (∃ lead trail,
      default "" body_message = lead +:+ msg +:+ trail
      ∧ Js.whitespace_only lead = true ∧ Js.whitespace_only trail = true)
  ∧ (∀ c r, msg = String c r → Js.is_space c = false)
  ∧ (∀ r c, msg = r +:+ String c "" → Js.is_space c = false)
  ∧ (validateChatRequest (Some msg)).1 = msg.
Proof.
  intros msg. subst msg. unfold validateChatRequest. cbn [fst].
  change (default "" (Some ?x)) with x.
  set (field := default "" body_message).
  assert (∀ c r, Js.trim field = String c r → Js.is_space c = false) as Hhead.
  { unfold Js.trim. intros c r Heq.
    destruct (rtrim_head _ _ _ Heq) as (r' & Hltrim).
    by apply (ltrim_head field c r'). }
  split; [|split; [exact Hhead | split]].
  - destruct (ltrim_split field) as (lead & Hfield & Hlead).
    destruct (rtrim_split (Js.ltrim field)) as (trail & Hkept & Htrail).
    exists lead, trail. split; [|done].
    unfold Js.trim. by rewrite <- Hkept.
  - intros r c. unfold Js.trim. apply rtrim_last.
  - unfold Js.trim at 1. rewrite (ltrim_fixed _ Hhead).
    unfold Js.trim. apply rtrim_fixed.
Qed.

(** ** routes/chatRoutes.js: the stream relay and the chunks *)

Lemma split_cons (sep c : ascii) (rest : string) :
  Js.split sep (String c rest) =
    if decide (c = sep) then "" :: Js.split sep rest
    else match Js.split sep rest with
         | [] => [String c ""]
         | w :: ws => String c w :: ws
         end.
Proof. reflexivity. Qed.

Lemma split_nonempty (sep : ascii) (s : string) : Js.split sep s ≠ [].
Proof.
  destruct s as [|c s]; [done|]. rewrite split_cons.
  destruct (decide (c = sep)); [done|]. by destruct (Js.split sep s).
Qed.

Lemma split_app_sep (sep : ascii) (x y : string) :
  Js.split sep (x +:+ String sep y) = Js.split sep x ++ Js.split sep y.
Proof.
  induction x as [|c x IH].
  - rewrite append_empty_l, split_cons. by rewrite decide_True by done.
  - rewrite append_cons, !split_cons, IH.
    destruct (decide (c = sep)); [done|].
    pose proof (split_nonempty sep x) as Hne.
    by destruct (Js.split sep x) as [|w ws].
Qed.

Lemma split_no_sep (sep : ascii) (s : string) :
  occurs sep s = false → Js.split sep s = [s].
Proof.
  induction s as [|c s IH]; [done|]. simpl. rewrite split_cons.
  destruct (decide (c = sep)); [discriminate|].
  intros Hrest. by rewrite (IH Hrest).
Qed.

Lemma lines_of_app `{Js.Runtime} (a b : list string) :
  lines_of (a ++ b) = lines_of a ++ lines_of b.
Proof. unfold lines_of. by rewrite map_app, concat_app. Qed.

Lemma lines_of_two `{Js.Runtime} (x y : string) :
  lines_of [x; y] = Js.split Js.newline x ++ Js.split Js.newline y.
Proof. unfold lines_of. simpl. by rewrite app_nil_r. Qed.

Lemma lines_of_one `{Js.Runtime} (x : string) :
  lines_of [x] = Js.split Js.newline x.
Proof. unfold lines_of. simpl. by rewrite app_nil_r. Qed.

(** The relay reads the frames of the stream and nothing else. *)
Lemma relay_reads_frames `{Js.Runtime} (cs cs' : list string) (ev : ending)
    (now : Z) (userId msg : string) (s : state Js.number) :
  frames cs = frames cs' →
  handleStreamResponse {| chunks := cs; last_event := ev |} now userId msg s
  = handleStreamResponse {| chunks := cs'; last_event := ev |} now userId msg s.
Proof.
  intros Hframes. unfold handleStreamResponse. cbn [chunks last_event].
  unfold mbind, M_bind. rewrite !on_chunks_relayed.
  unfold forwarded, forwarded_in, parse_failures_in.
  unfold frames in Hframes. by rewrite Hframes.
Qed.

(** X16.  Where the provider cuts its stream into chunks does not matter
    as long as it cuts after a line break: a chunk delivered in two
    pieces, the first ending with the line break, gives the same
    response, the same stored turn and the same log as the chunk
    delivered whole. *)
Theorem relay_ignores_cuts_at_line_breaks `{Js.Runtime} (before after : list string)
    (x y : string) (ev : ending) (now : Z) (userId msg : string)
    (s : state Js.number) :
  handleStreamResponse
    {| chunks := before ++ [x +:+ String Js.newline ""; y] ++ after; last_event := ev |}
    now userId msg s
  = handleStreamResponse
      {| chunks := before ++ [x +:+ String Js.newline y] ++ after; last_event := ev |}
      now userId msg s.
Proof.
  apply relay_reads_frames. unfold frames.
  rewrite !lines_of_app, lines_of_two, lines_of_one, !split_app_sep.
  rewrite !frames_in_app. do 2 f_equal.
  by rewrite <- app_assoc.
Qed.

(** X17.  A frame cut in the middle is lost.  When the first piece does
    not parse on its own and the second does not look like a frame, the
    relay forwards and accumulates what it would have without the two
    chunks, and logs one parse failure. *)
Theorem frame_cut_across_chunks_is_lost `{Js.Runtime} (before after : list string)
    (p1 p2 acc : string) (s : state Js.number) :
  occurs Js.newline p1 = false →
  occurs Js.newline p2 = false →
  Js.JSON_parse p1 = None →
  Js.startsWith "data: " p2 = false →
  let cut := on_chunks (before ++ ["data: " +:+ p1; p2] ++ after) acc s in
  let without := on_chunks (before ++ after) acc s in
  cut.1 = without.1
  ∧ res cut.2 = res without.2
  ∧ length (logs cut.2) = S (length (logs without.2)).
Proof.
  intros Hp1 Hp2 Hparse Hframe cut without. subst cut without.
  rewrite !on_chunks_relayed. cbn [fst snd]. unfold relayed. cbn [res logs].
  unfold forwarded. rewrite !lines_of_app, lines_of_two.
  rewrite (split_no_sep _ ("data: " +:+ p1)) by exact Hp1.
  rewrite (split_no_sep _ p2) by exact Hp2.
  assert (frames_in ["data: " +:+ p1; p2] = ["data: " +:+ p1]) as Hframes.
  { unfold frames_in. cbn [List.filter].
    change (Js.startsWith "data: " ("data: " +:+ p1)) with true.
    by rewrite Hframe. }
  assert (generated_text_of ("data: " +:+ p1) = None) as Hnone.
  { unfold generated_text_of.
    change (Js.slice 6 ("data: " +:+ p1)) with p1. by rewrite Hparse. }
  assert (forwarded_in (["data: " +:+ p1] ++ [p2]) = []) as Hforwarded.
  { unfold forwarded_in. cbn [app]. rewrite Hframes. simpl. by rewrite Hnone. }
  assert (parse_failures_in (["data: " +:+ p1] ++ [p2])
          = [(LogError, "Error parsing streaming data:")]) as Hfailures.
  { unfold parse_failures_in. cbn [app]. rewrite Hframes. simpl. by rewrite Hnone. }
  rewrite (forwarded_in_app (lines_of before)),
    (forwarded_in_app (_ ++ _) (lines_of after)), Hforwarded, app_nil_l,
    <- forwarded_in_app.
  rewrite (parse_failures_in_app (lines_of before)),
    (parse_failures_in_app (_ ++ _) (lines_of after)), Hfailures,
    (parse_failures_in_app (lines_of before) (lines_of after)).
  split; [done|]. split; [done|].
  rewrite !length_app. simpl. lia.
Qed.

Lemma frame_cut_across_chunks_is_lost_witness :
  let p1 := "{" +:+ String Sample.quote "generated_te" in
  let p2 := "xt" +:+ String Sample.quote ":" +:+ String Sample.quote "Hi"
            +:+ String Sample.quote "}" in
  @Js.JSON_parse Sample.runtime p1 = None
  ∧ @Js.JSON_parse Sample.runtime (p1 +:+ p2)
    = Some (Js.JObj [("generated_text", Js.JStr "Hi")])
  ∧ res (@on_chunks Sample.runtime ["data: " +:+ p1; p2] "" Sample.empty_state).2 = [].
Proof.
  intros p1 p2. split; [reflexivity|]. split; [reflexivity|].
  pose proof (proj1 (proj2 (@frame_cut_across_chunks_is_lost Sample.runtime [] []
                p1 p2 "" Sample.empty_state eq_refl eq_refl eq_refl eq_refl))) as Hw.
  vm_compute in Hw. vm_compute. exact Hw.
Defined.

(** X18.  A stream that breaks is not saved.  The fragments received
    before the error have been forwarded and stay on the response, which
    then gets the stream-error frame and is ended without a [[DONE]]
    marker; the store, the cache and the rate map are as before, so the
    partial answer never shows up in the history. *)
Theorem broken_stream_saves_nothing `{Js.Runtime} (cs : list string) (e : js_error)
    (now : Z) (userId msg : string) (s : state Js.number) :
  let done := handleStreamResponse {| chunks := cs; last_event := StreamError e |}
                now userId msg s in
  done.1 = Normal tt
  ∧ db done.2 = db s
  ∧ redis done.2 = redis s
  ∧ rateLimitCache done.2 = rateLimitCache s
  ∧ res done.2 = res s ++ deltas (forwarded cs)
                   ++ [ResWrite (ErrorFrame "Stream error"); ResEnd]
  ∧ (ResWrite Done ∉ deltas (forwarded cs)
                       ++ [ResWrite (ErrorFrame "Stream error"); ResEnd]).
Proof.
  intros done. subst done. rewrite relay_stream_error. cbn [fst snd].
  unfold relayed. cbn [db redis rateLimitCache res].
  do 5 (split; [reflexivity|]).
  intros [Hin | Hin]%elem_of_app.
  - by apply done_not_in_deltas in Hin.
  - repeat (apply elem_of_cons in Hin as [Heq | Hin]; [discriminate|]).
    by apply elem_of_nil in Hin.
Qed.

(** X19.  The relay does not depend on the cache.  With Redis
    disconnected when the stream ends, the turn is saved all the same and
    the response is completed with the [[DONE]] marker; the failed
    invalidation leaves one log entry and the cache as it was. *)
Theorem relay_survives_cache_outage `{Js.Runtime} (cs : list string)
    (now : Z) (userId msg : string) (s : state Js.number) :
  ChatStore.fault (db s) = None →
  Redis.connected (redis s) = false →
  let done := handleStreamResponse {| chunks := cs; last_event := StreamEnd |}
                now userId msg s in
  done.1 = Normal tt
  ∧ ChatStore.docs (db done.2) =
      ChatStore.docs (db s)
      ++ [new_turn now userId msg (concat_strings (map Js.ToString (forwarded cs)))]
  ∧ res done.2 = res s ++ deltas (forwarded cs) ++ [ResWrite Done; ResEnd]
  ∧ redis done.2 = redis s
  ∧ logs done.2 = logs s ++ parse_failures_in (lines_of cs)
                    ++ [(LogError, "Redis Delete Error:")].
Proof.
  intros Hok Hdown done. subst done.
  destruct (relay_saved cs now userId msg s Hok) as (c & l & -> & Hdel).
  unfold Redis.del in Hdel. rewrite Hdown in Hdel. destruct Hdel as [-> ->].
  cbn [fst snd db redis res logs ChatStore.docs]. done.
Qed.

Lemma relay_survives_cache_outage_witness :
  ChatStore.fault (db Sample.cache_down) = None
  ∧ Redis.connected (redis Sample.cache_down) = false
  ∧ res (@handleStreamResponse Sample.runtime
           {| chunks := Sample.hi_there; last_event := StreamEnd |}
           7 "u" "Hello" Sample.cache_down).2
    = [ResWrite (Delta (Js.JStr "Hi")); ResWrite (Delta (Js.JStr " there"));
       ResWrite Done; ResEnd].
Proof.
  split; [reflexivity|]. split; [reflexivity|].
  pose proof (proj1 (proj2 (proj2 (@relay_survives_cache_outage Sample.runtime
                Sample.hi_there 7 "u" "Hello" Sample.cache_down eq_refl eq_refl))))
    as Hw.
  vm_compute in Hw. vm_compute. exact Hw.
Defined.

(** ** routes/chatRoutes.js: a submission from end to end *)

Lemma post_chat_refused `{Js.Runtime} (key : string) (cfg : RateGovernor.config)
    (hf : provider) (now : Z) (userId : string) (body_message : option string)
    (s : state Js.number) (m : gmap string RateGovernor.rate_entry)
    (status : Z) (body : json_body) :
  Js.trim (default "" body_message) ≠ "" →
  RateGovernor.rateLimit cfg now userId (rateLimitCache s)
    = (m, RateGovernor.Respond status body) →
  post_chat key cfg hf now userId body_message s =
    (Normal None,
     mkState m (redis s) (db s) (logs s) (requests s)
             (res s ++ [SendJson status body])).
Proof.
  intros Hne Hdenied. unfold post_chat. rewrite (validate_ok _ Hne).
  unfold mbind, M_bind, rateLimit. by rewrite Hdenied.
Qed.

(** The two ways the outer catch ends. *)
Lemma caught_cases `{Js.Runtime} (A : Type) (e : js_error) :
  (unserialisable e = false ∧ @caught A e = Normal None
   ∧ ∃ status body, @error_report Js.number e = [SendJson status body])
  ∨ (unserialisable e = true ∧ @caught A e = Throw circular_structure
     ∧ ∃ status, @error_report Js.number e = [SetStatus status]
                 ∧ e_response e = Some (status, DataStream)).
Proof.
  unfold caught, unserialisable, error_report.
  destruct (decide (e_code e = Some "ECONNABORTED")) as [Hc|Hc]; [left; eauto|].
  destruct (e_response e) as [[status [|data]]|]; [right|left|left]; eauto 10.
Qed.

(** What a run of the chain may have done when it completes. *)
Lemma post_chat_effects `{Js.Runtime} (key : string) (cfg : RateGovernor.config)
    (hf : provider) (now : Z) (userId : string) (body_message : option string)
    (s : state Js.number) :
  let prompt := build_prompt (recent userId (ChatStore.docs (db s)))
                             (Js.trim (default "" body_message)) in
  ∃ c s',
    post_chat key cfg hf now userId body_message s = (c, s')
    ∧ db s' = db s ∧ redis s' = redis s
    ∧ (Js.trim (default "" body_message) ≠ "" →
       rateLimitCache s'
       = (RateGovernor.rateLimit cfg now userId (rateLimitCache s)).1)
    ∧ ((requests s' = requests s
        ∧ (c = Normal None
           ∨ ∃ e, ChatStore.fault (db s) = Some e ∧ c = caught e))
       ∨ (∃ r, c = Normal (Some r)
               ∧ requests s' = requests s ++ [primary_request key prompt]
               ∧ hf (primary_request key prompt) = Resolved r)
       ∨ (∃ e1, requests s' = requests s ++ [primary_request key prompt;
                                              fallback_request key prompt]
                ∧ hf (primary_request key prompt) = Rejected e1
                ∧ c = match hf (fallback_request key prompt) with
                      | Resolved r => Normal (Some r)
                      | Rejected e2 => caught e2
                      end))
    ∧ match c with
      | Normal (Some _) => res s' = res s ++ sse_headers
      | Normal None => ∃ written status body,
                         res s' = res s ++ written ++ [SendJson status body]
                         ∧ count_closes written = 0%nat
      | Throw t => t = circular_structure
                   ∧ ∃ status, res s' = res s ++ sse_headers ++ [SetStatus status]
      end.
Proof.
  intros prompt.
  assert (∀ (e : js_error) (ops : list (res_op Js.number)),
            ops = res s ++ sse_headers ++ error_report e →
            match @caught provider_stream e with
            | Normal (Some _) => ops = res s ++ sse_headers
            | Normal None => ∃ written status body,
                               ops = res s ++ written ++ [SendJson status body]
                               ∧ count_closes written = 0%nat
            | Throw t => t = circular_structure
                         ∧ ∃ status, ops = res s ++ sse_headers ++ [SetStatus status]
            end) as Hreport.
  { intros e ops Hres.
    destruct (caught_cases provider_stream e)
      as [(_ & -> & status & body & Hops) | (_ & -> & status & Hops & _)];
      rewrite Hops in Hres.
    - by exists sse_headers, status, body.
    - split; [done|]. by exists status. }
  destruct (decide (Js.trim (default "" body_message) = "")) as [Hblank|Hne].
  { rewrite (post_chat_blank key cfg hf now userId body_message s Hblank).
    eexists _, _. split; [reflexivity|]. cbn [db redis requests res with_res].
    do 2 (split; [reflexivity|]). split; [done|]. split; [left; by split; [|left]|].
    by exists [], 400, (ValidationBody
      [ {| v_path := "message"; v_msg := "Message cannot be empty" |} ]). }
  destruct (RateGovernor.rateLimit cfg now userId (rateLimitCache s)) as [m out]
    eqn:Hrate.
  destruct out as [|status body].
  2:{ rewrite (post_chat_refused key cfg hf now userId body_message s m status body
                 Hne Hrate).
      eexists _, _. split; [reflexivity|]. cbn [db redis requests res rateLimitCache].
      do 3 (split; [reflexivity|]). split; [left; by split; [|left]|].
      by exists [], status, body. }
  rewrite (post_chat_passes key cfg hf now userId body_message s Hne)
    by (unfold passes_rate_limit; by rewrite Hrate).
  rewrite Hrate. cbn [fst].
  destruct (ChatStore.fault (db s)) as [e|] eqn:Hfault.
  { rewrite (chat_handler_history_unreadable key hf userId _
               (with_rateLimitCache m s) e Hfault).
    eexists _, _. split; [reflexivity|].
    cbn [db redis requests res rateLimitCache with_rateLimitCache].
    do 3 (split; [reflexivity|]). split.
    - left. split; [reflexivity|]. right. by exists e.
    - by apply (Hreport e). }
  destruct (hf (primary_request key prompt)) as [r|e1] eqn:Hprimary.
  { rewrite (chat_handler_primary key hf userId _ (with_rateLimitCache m s) r
               Hfault Hprimary).
    eexists _, _. split; [reflexivity|].
    cbn [db redis requests res rateLimitCache with_rateLimitCache].
    do 3 (split; [reflexivity|]). split; [|reflexivity].
    right. left. by exists r. }
  destruct (hf (fallback_request key prompt)) as [r|e2] eqn:Hfallback.
  - rewrite (chat_handler_fallback key hf userId _ (with_rateLimitCache m s) e1 r
               Hfault Hprimary Hfallback).
    eexists _, _. split; [reflexivity|].
    cbn [db redis requests res rateLimitCache with_rateLimitCache].
    do 3 (split; [reflexivity|]). split; [|reflexivity].
    right. right. by exists e1.
  - rewrite (chat_handler_both_rejected key hf userId _ (with_rateLimitCache m s)
               e1 e2 Hfault Hprimary Hfallback).
    eexists _, _. split; [reflexivity|].
    cbn [db redis requests res rateLimitCache with_rateLimitCache].
    do 3 (split; [reflexivity|]). split.
    + right. right. by exists e1.
    + by apply (Hreport e2).
Qed.

(** The relay writes frames and then ends the response. *)
Lemma relay_writes_then_ends `{Js.Runtime} (response : provider_stream) (now : Z)
    (userId msg : string) (s : state Js.number) :
  ∃ s' written,
    handleStreamResponse response now userId msg s = (Normal tt, s')
    ∧ res s' = res s ++ written ++ [ResEnd]
    ∧ count_closes written = 0%nat.
Proof.
  destruct response as [cs fin].
  assert (∀ frame, count_closes (deltas (forwarded cs) ++ [ResWrite frame]) = 0%nat)
    as Hwritten.
  { intros frame. by rewrite count_closes_app, count_closes_deltas. }
  destruct fin as [|e].
  - destruct (ChatStore.fault (db s)) as [e|] eqn:Hfault.
    + rewrite (relay_save_failed cs now userId msg s e Hfault).
      eexists _, (deltas (forwarded cs) ++ [ResWrite (ErrorFrame "Error saving chat")]).
      split; [reflexivity|]. split; [|apply Hwritten].
      simpl. by rewrite <- !app_assoc.
    + destruct (relay_saved cs now userId msg s Hfault) as (c & l & -> & _).
      eexists _, (deltas (forwarded cs) ++ [ResWrite Done]).
      split; [reflexivity|]. split; [|apply Hwritten].
      simpl. by rewrite <- !app_assoc.
  - rewrite relay_stream_error.
    eexists _, (deltas (forwarded cs) ++ [ResWrite (ErrorFrame "Stream error")]).
    split; [reflexivity|]. split; [|apply Hwritten].
    simpl. by rewrite <- !app_assoc.
Qed.

(** X20.  What the chain for a submission can do is bounded.  It never
    writes to the store or the cache.  It calls no provider, or the
    primary one, or the primary and then the fallback one, with the same
    prompt; the fallback provider is called only when the primary call
    was rejected, and the stream handed to the relay is the one the last
    provider called has answered with.  It throws in one case only: the
    error it has to report, the store's or the fallback provider's, is not
    a timeout and carries an HTTP response whose body is a stream; then
    [res.json] throws, and the response has its headers and a status but
    no body. *)
Theorem submission_effects_are_bounded `{Js.Runtime} (key : string)
    (cfg : RateGovernor.config) (hf : provider) (now : Z) (userId : string)
    (body_message : option string) (s : state Js.number) :
  let done := post_chat key cfg hf now userId body_message s in
  let prompt := build_prompt (recent userId (ChatStore.docs (db s)))
                             (Js.trim (default "" body_message)) in
  db done.2 = db s
  ∧ redis done.2 = redis s
  ∧ ((requests done.2 = requests s
      ∧ (done.1 = Normal None
         ∨ ∃ e, ChatStore.fault (db s) = Some e ∧ unserialisable e = true
                ∧ done.1 = Throw circular_structure))
     ∨ (∃ r, done.1 = Normal (Some r)
             ∧ requests done.2 = requests s ++ [primary_request key prompt]
             ∧ hf (primary_request key prompt) = Resolved r)
     ∨ (∃ e1, requests done.2 = requests s ++ [primary_request key prompt;
                                               fallback_request key prompt]
              ∧ hf (primary_request key prompt) = Rejected e1
              ∧ done.1 = match hf (fallback_request key prompt) with
                         | Resolved r => Normal (Some r)
                         | Rejected e2 =>
                             if unserialisable e2 then Throw circular_structure
                             else Normal None
                         end))
  ∧ (∀ t, done.1 = Throw t →
          t = circular_structure
          ∧ ∃ status, res done.2 = res s ++ sse_headers ++ [SetStatus status]).
Proof.
  intros done prompt. subst done.
  destruct (post_chat_effects key cfg hf now userId body_message s)
    as (c & s' & -> & Hdb & Hredis & _ & Hcalls & Hres).
  cbn [fst snd]. split; [exact Hdb|]. split; [exact Hredis|]. split.
  - destruct Hcalls as [[Hreq [-> | (e & Hfault & ->)]]
                       | [(r & -> & Hreq & Hp) | (e1 & Hreq & Hp & ->)]].
    + left. split; [exact Hreq | by left].
    + left. split; [exact Hreq|].
      destruct (caught_cases provider_stream e)
        as [(_ & -> & _) | (Hstream & -> & _)]; [by left|].
      right. by exists e.
    + right. left. by exists r.
    + right. right. exists e1. split; [exact Hreq|]. split; [exact Hp|].
      fold prompt. by destruct (hf (fallback_request key prompt)).
  - intros t ->. exact Hres.
Qed.

(** Both providers answering with an HTTP error: the route sets the
    status of the fallback's answer and throws. *)
Example provider_http_error_is_not_answered :
  (@post_chat Sample.runtime "key" RateGovernor.default_config Sample.primary_down
     1000 "u" (Some "Hello") Sample.empty_state).1 = Throw circular_structure
  ∧ res (@post_chat Sample.runtime "key" RateGovernor.default_config
           Sample.primary_down 1000 "u" (Some "Hello") Sample.empty_state).2
    = sse_headers ++ [SetStatus 503].
Proof. split; vm_compute; reflexivity. Qed.

(** X21.  A submission the governor lets through is counted whatever
    happens to it afterwards: with a message that is not blank and an open
    window with room left, the count of the user goes up by one, be the
    store unreachable or both providers down. *)
Theorem admitted_submission_is_counted `{Js.Runtime} (key : string)
    (cfg : RateGovernor.config) (hf : provider) (now : Z) (userId : string)
    (body_message : option string) (s : state Js.number) (c start : Z) :
  Js.whitespace_only (default "" body_message) = false →
  rateLimitCache s !! userId
    = Some {| RateGovernor.count := c; RateGovernor.window_start := start |} →
  now - start ≤ RateGovernor.RATE_LIMIT_WINDOW cfg →
  c < RateGovernor.MAX_REQUESTS cfg →
  rateLimitCache (post_chat key cfg hf now userId body_message s).2 !! userId
    = Some {| RateGovernor.count := c + 1; RateGovernor.window_start := start |}.
Proof.
  intros Hfull Hentry Hopen Hroom.
  assert (Js.trim (default "" body_message) ≠ "") as Hne.
  { intros Hblank%trim_empty. congruence. }
  destruct (post_chat_effects key cfg hf now userId body_message s)
    as (o & s' & -> & _ & _ & Hmap & _).
  cbn [snd]. rewrite (Hmap Hne).
  unfold RateGovernor.rateLimit. cbn zeta.
  rewrite (proj2 (sweep_lookup cfg now (rateLimitCache s) userId
                    {| RateGovernor.count := c; RateGovernor.window_start := start |})).
  2:{ split; [exact Hentry|]. unfold RateGovernor.stale. simpl. lia. }
  cbn [RateGovernor.count RateGovernor.window_start].
  rewrite decide_False by lia. cbn [fst]. apply lookup_insert_eq.
Qed.

Lemma admitted_submission_is_counted_witness :
  let s := with_rateLimitCache {["u" := RateGovernor.mkEntry 3 0]} Sample.store_down in
  Js.whitespace_only (default "" (Some "Hello")) = false
  ∧ rateLimitCache s !! "u" = Some (RateGovernor.mkEntry 3 0)
  ∧ 1000 - 0 ≤ RateGovernor.RATE_LIMIT_WINDOW RateGovernor.default_config
  ∧ 3 < RateGovernor.MAX_REQUESTS RateGovernor.default_config
  ∧ rateLimitCache
      (@post_chat Sample.runtime "key" RateGovernor.default_config
         Sample.primary_down 1000 "u" (Some "Hello") s).2 !! "u"
    = Some (RateGovernor.mkEntry 4 0).
Proof.
  intros s. split; [reflexivity|]. split; [reflexivity|].
  split; [vm_compute; discriminate|]. split; [reflexivity|].
  exact (@admitted_submission_is_counted Sample.runtime "key"
           RateGovernor.default_config Sample.primary_down 1000 "u" (Some "Hello")
           s 3 0 eq_refl eq_refl ltac:(vm_compute; discriminate) eq_refl).
Defined.

(** X22.  A submission that is answered is saved.  When the chain hands
    a stream to the relay, by the primary or by the fallback provider,
    and the stream ends with the store reachable, the whole submission
    adds one turn to the store, made of the trimmed message and the text
    forwarded, and the response is the stream headers, the fragments, the
    [[DONE]] marker and the end. *)
Theorem answered_submission_is_saved `{Js.Runtime} (key : string)
    (cfg : RateGovernor.config) (hf : provider) (now now_end : Z) (userId : string)
    (body_message : option string) (s : state Js.number) (r : provider_stream) :
  ChatStore.fault (db s) = None →
  (post_chat key cfg hf now userId body_message s).1 = Normal (Some r) →
  last_event r = StreamEnd →
  let done := chat_submission key cfg hf now now_end userId body_message s in
  done.1 = Normal tt
  ∧ ChatStore.docs (db done.2) =
      ChatStore.docs (db s)
      ++ [new_turn now_end userId (Js.trim (default "" body_message))
            (concat_strings (map Js.ToString (forwarded (chunks r))))]
  ∧ res done.2 = res s ++ sse_headers ++ deltas (forwarded (chunks r))
                   ++ [ResWrite Done; ResEnd].
Proof.
  intros Hok Hanswered Hend done. subst done.
  unfold chat_submission, mbind, M_bind.
  destruct (post_chat_effects key cfg hf now userId body_message s)
    as (c & s' & Hpost & Hdb & _ & _ & _ & Hres).
  rewrite Hpost in Hanswered |- *. cbn [fst] in Hanswered. subst c.
  destruct r as [cs fin]. cbn [last_event chunks] in Hend |- *. subst fin.
  destruct (relay_saved cs now_end userId (validateChatRequest body_message).1 s')
    as (c & l & -> & _); [by rewrite Hdb|].
  cbn [fst snd db res ChatStore.docs]. rewrite Hdb, Hres.
  split; [reflexivity|]. split; [reflexivity|]. by rewrite <- !app_assoc.
Qed.

Lemma answered_submission_is_saved_witness :
  ChatStore.fault (db Sample.empty_state) = None
  ∧ ChatStore.docs
      (db (@chat_submission Sample.runtime "key" RateGovernor.default_config
             Sample.answers_hi 1000 2000 "u" (Some "  Hello ") Sample.empty_state).2)
    = [new_turn 2000 "u" "Hello" "Hi there"].
Proof.
  split; [reflexivity|].
  pose proof (proj1 (proj2 (@answered_submission_is_saved Sample.runtime "key"
                RateGovernor.default_config Sample.answers_hi 1000 2000 "u"
                (Some "  Hello ") Sample.empty_state
                {| chunks := Sample.hi_there; last_event := StreamEnd |}
                eq_refl eq_refl eq_refl))) as Hw.
  vm_compute in Hw. vm_compute. exact Hw.
Defined.

(** X23.  A submission is answered once, or not at all when [res.json]
    throws.  Whatever the message, the rate map, the store, the providers
    and the stream are, a submission on an open response either returns
    normally, having finished the response exactly once, by a JSON reply
    or by ending the stream, as the last thing done on the response; or
    it throws the error of [res.json] on a stream, having finished
    nothing: the response then has the stream headers and a status, and
    no relay has run. *)
Theorem submission_is_answered_at_most_once `{Js.Runtime} (key : string)
    (cfg : RateGovernor.config) (hf : provider) (now now_end : Z) (userId : string)
    (body_message : option string) (s : state Js.number) :
  count_closes (res s) = 0%nat →
  let done := chat_submission key cfg hf now now_end userId body_message s in
  (done.1 = Normal tt
   ∧ count_closes (res done.2) = 1%nat
   ∧ ∃ op, last (res done.2) = Some op ∧ closes op = true)
  ∨ (done.1 = Throw circular_structure
     ∧ count_closes (res done.2) = 0%nat
     ∧ (∃ status, res done.2 = res s ++ sse_headers ++ [SetStatus status])
     ∧ db done.2 = db s
     ∧ (post_chat key cfg hf now userId body_message s).1 = Throw circular_structure).
Proof.
  intros Hopen done. subst done.
  unfold chat_submission, mbind, M_bind.
  destruct (post_chat_effects key cfg hf now userId body_message s)
    as (c & s' & -> & Hdb & _ & _ & _ & Hres).
  destruct c as [[response|]|t].
  - left.
    destruct (relay_writes_then_ends response now_end userId
                (validateChatRequest body_message).1 s')
      as (s'' & written & -> & Hres' & Hwritten).
    cbn [fst snd]. rewrite Hres', Hres. split; [reflexivity|]. split.
    + rewrite !count_closes_app, Hopen, Hwritten. reflexivity.
    + exists ResEnd. by rewrite !app_assoc, last_snoc.
  - left. destruct Hres as (written & status & body & Hres & Hwritten).
    unfold mret, M_ret. cbn [fst snd]. rewrite Hres. split; [reflexivity|]. split.
    + rewrite !count_closes_app, Hopen, Hwritten. reflexivity.
    + exists (SendJson status body). by rewrite !app_assoc, last_snoc.
  - right. destruct Hres as (-> & status & Hres).
    cbn [fst snd]. rewrite Hres. split; [reflexivity|]. split.
    + rewrite !count_closes_app, Hopen. reflexivity.
    + split; [by exists status|]. by split.
Qed.

Lemma submission_is_answered_at_most_once_witness :
  count_closes (res Sample.empty_state) = 0%nat
  ∧ (@chat_submission Sample.runtime "key" RateGovernor.default_config
       Sample.primary_down 1000 2000 "u" (Some "Hello") Sample.empty_state).1
    = Throw circular_structure
  ∧ count_closes
      (res (@chat_submission Sample.runtime "key" RateGovernor.default_config
              Sample.primary_breaks 1000 2000 "u" (Some "Hello")
              Sample.empty_state).2) = 1%nat.
Proof.
  split; [reflexivity|].
  destruct (@submission_is_answered_at_most_once Sample.runtime "key"
              RateGovernor.default_config Sample.primary_down 1000 2000 "u"
              (Some "Hello") Sample.empty_state eq_refl)
    as [(Hnormal & _) | (Hthrown & _)].
  - vm_compute in Hnormal. discriminate.
  - split; [exact Hthrown|].
    destruct (@submission_is_answered_at_most_once Sample.runtime "key"
                RateGovernor.default_config Sample.primary_breaks 1000 2000 "u"
                (Some "Hello") Sample.empty_state eq_refl)
      as [(_ & Hcount & _) | (Hthrown' & _)].
    + exact Hcount.
    + vm_compute in Hthrown'. discriminate.
Defined.

(** The turn that is newer than all others of its user comes first. *)
Lemma newest_first_snoc (userId : string) (l : list ChatTurn) (new : ChatTurn) :
  user_id new = userId →
  (∀ t, t ∈ l → user_id t = userId → timestamp t < timestamp new) →
  ∃ older, ChatStore.newest_first userId (l ++ [new]) = new :: older.
Proof.
  intros Hown Hnewer.
  pose proof (newest_first_sorted userId (l ++ [new])) as Hsorted.
  assert (new ∈ ChatStore.newest_first userId (l ++ [new])) as Hnew.
  { apply elem_of_newest_first. split; [|exact Hown].
    apply elem_of_app. right. by apply list_elem_of_singleton. }
  destruct (ChatStore.newest_first userId (l ++ [new])) as [|h older] eqn:Hlist.
  { by apply elem_of_nil in Hnew. }
  exists older. f_equal.
  apply StronglySorted_inv in Hsorted as [_ Hhead].
  assert (h ∈ ChatStore.newest_first userId (l ++ [new])) as Hh.
  { rewrite Hlist. by left. }
  apply elem_of_newest_first in Hh as [Hh Hhown].
  apply elem_of_app in Hh as [Hh | Hh]; [|by apply list_elem_of_singleton in Hh].
  specialize (Hnewer h Hh Hhown).
  apply elem_of_cons in Hnew as [-> | Hnew]; [done|].
  rewrite Forall_forall in Hhead. specialize (Hhead new Hnew).
  unfold ChatStore.newer_or_equal in Hhead. lia.
Qed.

(** Once the history is read the handler calls the primary provider
    first, with the prompt built from the context window. *)
Lemma chat_handler_first_call `{Js.Runtime} (key : string) (hf : provider)
    (userId msg : string) (s : state Js.number) :
  ChatStore.fault (db s) = None →
  ∃ later, requests (chat_handler key hf userId msg s).2
           = requests s
             ++ primary_request key
                  (build_prompt (recent userId (ChatStore.docs (db s))) msg) :: later.
Proof.
  intros Hok.
  destruct (hf (primary_request key
                  (build_prompt (recent userId (ChatStore.docs (db s))) msg)))
    as [response|e1] eqn:Hprimary.
  { exists []. by rewrite (chat_handler_primary key hf userId msg s response Hok Hprimary). }
  exists [fallback_request key
            (build_prompt (recent userId (ChatStore.docs (db s))) msg)].
  destruct (hf (fallback_request key
                  (build_prompt (recent userId (ChatStore.docs (db s))) msg)))
    as [response|e2] eqn:Hfallback.
  - by rewrite (chat_handler_fallback key hf userId msg s e1 response
                  Hok Hprimary Hfallback).
  - by rewrite (chat_handler_both_rejected key hf userId msg s e1 e2
                  Hok Hprimary Hfallback).
Qed.

(** X24.  The conversation is remembered from one submission to the
    next.  After the relay has saved a turn that is newer than the other
    turns of its user, the prompt of that user's next submission opens
    with this turn: the message between instruction markers, a line feed,
    the response that was forwarded, a line feed, and then the prompt
    built from up to four older turns and the new message. *)
Theorem saved_turn_opens_next_prompt `{Js.Runtime} (key : string) (hf : provider)
    (cs : list string) (now : Z) (userId msg msg' : string) (s : state Js.number) :
  ChatStore.fault (db s) = None →
  (∀ t, t ∈ ChatStore.docs (db s) → user_id t = userId → timestamp t < now) →
  let answer := concat_strings (map Js.ToString (forwarded cs)) in
  let saved := (handleStreamResponse {| chunks := cs; last_event := StreamEnd |}
                  now userId msg s).2 in
  ∃ older later,
    requests (chat_handler key hf userId msg' saved).2
    = requests saved
      ++ primary_request key
           (instruction msg +:+ String Js.newline ""
            +:+ answer +:+ String Js.newline "" +:+ build_prompt older msg') :: later
    ∧ (length older ≤ 4)%nat
    ∧ (∀ t, t ∈ older → t ∈ ChatStore.docs (db s) ∧ user_id t = userId).
Proof.
  intros Hok Hnewer answer saved. subst saved.
  destruct (relay_saved cs now userId msg s Hok) as (c & l & -> & _).
  cbn [snd]. fold answer.
  set (saved := mkState _ _ _ _ _ _).
  destruct (chat_handler_first_call key hf userId msg' saved eq_refl)
    as (later & Hcall).
  destruct (newest_first_snoc userId (ChatStore.docs (db s))
              (new_turn now userId msg answer) eq_refl Hnewer)
    as (rest & Hlist).
  exists (take 4 rest), later. split; [|split].
  - rewrite Hcall. do 3 f_equal.
    subst saved. cbn [db ChatStore.docs]. unfold recent. rewrite Hlist.
    change (take 5 (new_turn now userId msg answer :: rest))
      with (new_turn now userId msg answer :: take 4 rest).
    by rewrite build_prompt_cons.
  - rewrite length_take. lia.
  - intros t Ht. apply subseteq_take in Ht.
    assert (t ∈ ChatStore.newest_first userId
                  (ChatStore.docs (db s) ++ [new_turn now userId msg answer]))
      as Hin by (rewrite Hlist; by right).
    apply elem_of_newest_first in Hin as [Hin Hown]. split; [|exact Hown].
    apply elem_of_app in Hin as [Hin | Hin]; [exact Hin|].
    apply list_elem_of_singleton in Hin. subst t.
    pose proof (newest_first_sorted userId
                  (ChatStore.docs (db s) ++ [new_turn now userId msg answer]))
      as Hsorted.
    rewrite Hlist in Hsorted.
    apply StronglySorted_inv in Hsorted as [_ Hhead].
    pose proof (newest_first_owned userId
                  (ChatStore.docs (db s) ++ [new_turn now userId msg answer]))
      as Hperm.
    rewrite Hlist in Hperm. unfold ChatStore.owned_by in Hperm.
    rewrite filter_app, filter_cons_True, filter_nil in Hperm by done.
    rewrite <- Permutation_cons_append in Hperm.
    apply Permutation_cons_inv in Hperm.
    rewrite Hperm in Ht. apply list_elem_of_filter in Ht as [_ Ht].
    specialize (Hnewer _ Ht eq_refl). simpl in Hnewer. lia.
Qed.

Lemma saved_turn_opens_next_prompt_witness :
  ChatStore.fault (db Sample.talked_before) = None
  ∧ ∃ later,
      requests (@chat_handler Sample.runtime "key" Sample.answers_hi "u" "Again"
                  (@handleStreamResponse Sample.runtime
                     {| chunks := Sample.hi_there; last_event := StreamEnd |}
                     2000 "u" "Hello" Sample.talked_before).2).2
      = primary_request "key"
          (instruction "Hello" +:+ Sample.line_feed +:+ "Hi there" +:+ Sample.line_feed
           +:+ instruction "Second" +:+ Sample.line_feed +:+ "Two" +:+ Sample.line_feed
           +:+ instruction "First" +:+ Sample.line_feed +:+ "One" +:+ Sample.line_feed
           +:+ instruction "Again") :: later.
Proof.
  split; [reflexivity|].
  assert (∀ t, t ∈ ChatStore.docs (db Sample.talked_before) → user_id t = "u" →
               timestamp t < 2000) as Hnewer.
  { intros t Ht _.
    repeat (apply elem_of_cons in Ht as [-> | Ht]; [reflexivity|]).
    by apply elem_of_nil in Ht. }
  destruct (@saved_turn_opens_next_prompt Sample.runtime "key" Sample.answers_hi
              Sample.hi_there 2000 "u" "Hello" "Again" Sample.talked_before
              eq_refl Hnewer) as (older & later & Hcall & _).
  exists later. vm_compute in Hcall. vm_compute. 
  injection Hcall as _ Hlater. by rewrite Hlater.
Defined.

(** ** routes/chatRoutes.js: the pages of the history *)

(** X25.  The page count the history route reports is the number of
    pages that hold something: read from the store with a positive page
    number and limit, a page has turns exactly when its number is at most
    the reported count, and every page before the last reported one is
    full. *)
Theorem total_pages_counts_the_pages `{Js.Runtime} (now : Z) (userId : string)
    (q_page q_limit : option Z) (s : state Js.number) :
  let page := default 1 q_page in
  let limit := default 20 q_limit in
  ChatStore.fault (db s) = None →
  1 ≤ page →
  1 ≤ limit →
  Redis.get (redis s) now (cacheKey userId page limit) = inr None →
  ∃ result pages,
    res (get_history now userId q_page q_limit s).2
      = res s ++ [SendJson 200 (HistoryBody result)]
    ∧ totalPages result = JsInt pages
    ∧ currentPage result = page
    ∧ (chats result ≠ [] ↔ page ≤ pages)
    ∧ (page < pages → Z.of_nat (length (chats result)) = limit).
Proof.
  intros page limit Hok Hpage Hlimit Hmiss. subst page limit.
  rewrite (get_history_miss now userId q_page q_limit s Hok Hpage Hlimit Hmiss).
  cbn zeta. eexists _, _. split; [reflexivity|]. cbn [totalPages currentPage chats].
  split; [reflexivity|]. split; [reflexivity|].
  set (limit := default 20 q_limit) in *. set (page := default 1 q_page) in *.
  pose proof (Permutation_length (newest_first_owned userId (ChatStore.docs (db s))))
    as Hlen.
  set (sorted := ChatStore.newest_first userId (ChatStore.docs (db s))) in *.
  set (total := length (ChatStore.owned_by userId (ChatStore.docs (db s)))) in *.
  pose proof (ceil_div_bounds (Z.of_nat total) limit ltac:(lia)) as Hpages.
  set (pages := ceil_div (Z.of_nat total) limit) in *.
  assert (length (take (Z.to_nat limit) (drop (Z.to_nat ((page - 1) * limit)) sorted))
          = (Z.to_nat limit `min` (total - Z.to_nat ((page - 1) * limit)))%nat)
    as Hpage_len.
  { by rewrite length_take, length_drop, Hlen. }
  assert (0 ≤ (page - 1) * limit) as Hskip by nia.
  assert (page ≤ pages ↔ (page - 1) * limit < Z.of_nat total) as Hlast
    by (split; nia).
  assert (page < pages → (page - 1) * limit + limit < Z.of_nat total) as Hfull
    by nia.
  split.
  - rewrite Hlast. rewrite <- length_zero_iff_nil, Hpage_len. lia.
  - intros Hbefore. specialize (Hfull Hbefore). rewrite Hpage_len. lia.
Qed.

Lemma total_pages_counts_the_pages_witness :
  ChatStore.fault (db Sample.talked_before) = None
  ∧ 1 ≤ default 1 (Some 1)
  ∧ 1 ≤ default 20 (Some 1)
  ∧ ∃ result,
      res (@get_history Sample.runtime 0 "u" (Some 1) (Some 1) Sample.talked_before).2
        = [SendJson 200 (HistoryBody result)]
      ∧ totalPages result = JsInt 2
      ∧ chats result = [mkChatTurn "u" "Second" "Two" 20].
Proof.
  split; [reflexivity|]. split; [reflexivity|]. split; [reflexivity|].
  destruct (@total_pages_counts_the_pages Sample.runtime 0 "u" (Some 1) (Some 1)
              Sample.talked_before eq_refl ltac:(reflexivity) ltac:(reflexivity)
              eq_refl) as (result & pages & Hres & _).
  vm_compute in Hres. injection Hres as <-.
  eexists. split; [vm_compute; reflexivity|]. split; reflexivity.
Defined.
